(** * server.js: a shallow embedding of the chat backend and its properties

    The development follows the layout of [src/server.js]:

    - JavaScript strings (sequences of UTF-16 code units) and the string
      built-ins the server calls;
    - [detectLanguage] and [generateAIResponse];
    - the two Mongoose collections (users, chats) as finite maps keyed by
      [_id], and the query helpers the handlers use;
    - the authentication gate and every route handler, as functions from
      a store and a request to a response and a new store;
    - the properties of the handlers.

    Libraries the server imports (bcryptjs, jsonwebtoken, validator, the
    Unicode tables behind [toLowerCase], the number printer) are not part of
    the repository: they are gathered in the record [Platform] and every
    definition that calls one of them takes the platform as a parameter. *)

From Stdlib Require Import ZArith List String Ascii Bool Lia.
From Stdlib Require Import Floats.PrimFloat.
From Stdlib Require Import Sorted.
From stdpp Require Import gmap list.
Import ListNotations.

#[local] Open Scope Z_scope.
#[local] Set Warnings "-inexact-float,-register-all".

(** ** JavaScript strings *)

Module JS.

(** A JavaScript string is a sequence of UTF-16 code units. *)
Definition jsstring := list Z.

(** *** Literals

    Source literals are written in the file as they are in [server.js]:
    UTF-8 text in which the escape [\n] stands for a line feed.  [lit]
    turns such a literal into its code units. *)

Definition byte_of (a : ascii) : Z := Z.of_N (N_of_ascii a).

Fixpoint bytes_of (s : string) : list Z :=
  match s with
  | EmptyString => []
  | String a r => byte_of a :: bytes_of r
  end.

(** The only escape sequence the source uses in a string literal. *)
Fixpoint unescape (bs : list Z) : list Z :=
  match bs with
  | [] => []
  | b :: r =>
    match r with
    | b' :: r' =>
      if (b =? 92) && (b' =? 110) then 10 :: unescape r' else b :: unescape r
    | [] => [b]
    end
  end.

Definition cont (b : Z) : Z := Z.land b 0x3F.

(** UTF-8 bytes to Unicode code points. *)
Fixpoint utf8_decode (bs : list Z) : list Z :=
  match bs with
  | [] => []
  | b0 :: r0 =>
    if b0 <? 0x80 then b0 :: utf8_decode r0 else
    match r0 with
    | [] => [0xFFFD]
    | b1 :: r1 =>
      if b0 <? 0xE0 then
        Z.lor (Z.shiftl (Z.land b0 0x1F) 6) (cont b1) :: utf8_decode r1
      else
      match r1 with
      | [] => [0xFFFD]
      | b2 :: r2 =>
        if b0 <? 0xF0 then
          Z.lor (Z.shiftl (Z.land b0 0x0F) 12)
                (Z.lor (Z.shiftl (cont b1) 6) (cont b2)) :: utf8_decode r2
        else
        match r2 with
        | [] => [0xFFFD]
        | b3 :: r3 =>
          Z.lor (Z.shiftl (Z.land b0 0x07) 18)
                (Z.lor (Z.shiftl (cont b1) 12)
                       (Z.lor (Z.shiftl (cont b2) 6) (cont b3)))
            :: utf8_decode r3
        end
      end
    end
  end.

(** A code point as one code unit, or as a surrogate pair. *)
Definition utf16_units (cp : Z) : list Z :=
  if cp <? 0x10000 then [cp]
  else let c := cp - 0x10000 in
       [0xD800 + Z.shiftr c 10; 0xDC00 + Z.land c 0x3FF].

Definition lit (s : string) : jsstring :=
  flat_map utf16_units (utf8_decode (unescape (bytes_of s))).

(** *** Built-ins of [String.prototype] *)

(** [s.length] *)
Definition length (s : jsstring) : Z := Z.of_nat (List.length s).

(** [s.startsWith(p)] at position 0; the helper of [includes]. *)
Fixpoint startsWith (s p : jsstring) : bool :=
  match p, s with
  | [], _ => true
  | _ :: _, [] => false
  | y :: p', x :: s' => (x =? y) && startsWith s' p'
  end.

(** [s.includes(p)] *)
Fixpoint includes (s p : jsstring) : bool :=
  startsWith s p ||
  match s with
  | [] => false
  | _ :: s' => includes s' p
  end.

(** [s.substring(a, b)] for non-negative integer arguments: both are
    clamped to the length and swapped when [a > b]. *)
Definition substring (s : jsstring) (a b : nat) : jsstring :=
  let n := List.length s in
  let a' := Nat.min a n in
  let b' := Nat.min b n in
  let lo := Nat.min a' b' in
  let hi := Nat.max a' b' in
  skipn lo (firstn hi s).

(** White space and line terminators of ECMAScript, the code units that
    [trim] strips. *)
Definition isWhiteSpace (c : Z) : bool :=
  (c =? 0x0009) || (c =? 0x000A) || (c =? 0x000B) || (c =? 0x000C) ||
  (c =? 0x000D) || (c =? 0x0020) || (c =? 0x00A0) || (c =? 0x1680) ||
  ((0x2000 <=? c) && (c <=? 0x200A)) ||
  (c =? 0x2028) || (c =? 0x2029) || (c =? 0x202F) || (c =? 0x205F) ||
  (c =? 0x3000) || (c =? 0xFEFF).

Fixpoint trimStart (s : jsstring) : jsstring :=
  match s with
  | [] => []
  | c :: r => if isWhiteSpace c then trimStart r else s
  end.

Definition trimEnd (s : jsstring) : jsstring := rev (trimStart (rev s)).

(** [s.trim()] *)
Definition trim (s : jsstring) : jsstring := trimEnd (trimStart s).

(** [s.replace(p, r)] with a string pattern: the first occurrence only. *)
Fixpoint replace (s p r : jsstring) : jsstring :=
  if startsWith s p then r ++ skipn (List.length p) s
  else match s with
       | [] => []
       | c :: s' => c :: replace s' p r
       end.

(** [s.toLowerCase()].  On text made of ASCII code units only, the Unicode
    case conversion is the map of [A-Z] to [a-z]; on any other text it is
    read from the Unicode tables, which the caller supplies. *)
Definition isAscii (c : Z) : bool := (0 <=? c) && (c <? 128).

Definition asciiLower (c : Z) : Z :=
  if (65 <=? c) && (c <=? 90) then c + 32 else c.

Definition toLowerCase (unicodeLower : jsstring -> jsstring) (s : jsstring)
  : jsstring :=
  if forallb isAscii s then map asciiLower s else unicodeLower s.

(** [re.test(s)] for a regular expression that is one character class
    [[\ulo-\uhi]] without flags: some code unit of [s] lies in the range. *)
Definition testRange (lo hi : Z) (s : jsstring) : bool :=
  existsb (fun c => (lo <=? c) && (c <=? hi)) s.

(** Truthiness of a string: every string but the empty one. *)
Definition truthy (s : jsstring) : bool :=
  match s with [] => false | _ :: _ => true end.

End JS.

Abbreviation jsstring := JS.jsstring.
Abbreviation lit := JS.lit.

(** ** Values of the other base types *)

(** A Mongo [ObjectId], seen as the 96-bit number it encodes. *)
Definition ObjectId := N.

(** A [Date]: milliseconds since the epoch. *)
Definition Time := Z.

(** [id.toString()]: 24 lower-case hexadecimal digits. *)
Definition hexDigit (d : N) : Z :=
  if (d <? 10)%N then 48 + Z.of_N d else 87 + Z.of_N d.

Fixpoint hexDigits (n : nat) (i : N) (acc : jsstring) : jsstring :=
  match n with
  | O => acc
  | S n' => hexDigits n' (i / 16)%N (hexDigit (i mod 16)%N :: acc)
  end.

Definition toHexString (i : ObjectId) : jsstring := hexDigits 24 i [].

(** A JavaScript number is a binary64 float.  It is falsy when it is
    [0], [-0] or [NaN]. *)
Definition numberTruthy (x : float) : bool :=
  negb (PrimFloat.eqb x 0%float) && PrimFloat.eqb x x.

(** JSON values, as [res.json] sends them. *)
Inductive json : Type :=
| JNull
| JBool (b : bool)
| JNum (x : float)
| JStr (s : jsstring)
| JDate (t : Time)
| JArr (items : list json)
| JObj (fields : list (string * json)).

(** One property of an object literal. *)
Definition field (k : string) (v : json) : string * json := (k, v).

(** ** The libraries the server imports *)

Record Platform : Type := {
  (** [String.prototype.toLowerCase] on text that is not pure ASCII *)
  unicodeLower : jsstring -> jsstring;
  (** [Number::toString], as used by a template literal *)
  numberToString : float -> jsstring;
  (** [validator.isEmail] *)
  isEmail : jsstring -> bool;
  (** [bcrypt.genSalt(rounds)], from the randomness it draws *)
  bcrypt_genSalt : Z -> Z -> jsstring;
  (** [bcrypt.hash(password, salt)] *)
  bcrypt_hash : jsstring -> jsstring -> jsstring;
  (** [bcrypt.compare(password, hash)] *)
  bcrypt_compare : jsstring -> jsstring -> bool;
  (** [jwt.sign({ userId }, secret, { expiresIn })] at a given time *)
  jwt_sign : ObjectId -> jsstring -> jsstring -> Time -> jsstring;
  (** [jwt.verify(token, secret)] at a given time: the [userId] of the
      payload, or [None] when it throws *)
  jwt_verify : jsstring -> jsstring -> Time -> option ObjectId
}.

(** What a request reads from its surroundings: the clock (the [k]-th
    [new Date()] or [Date.now()] of the request), the [_id] a [new Model()]
    is given, the randomness [genSalt] draws and the process
    environment. *)
Record Ambient : Type := {
  clock : nat -> Time;
  freshId : ObjectId;
  entropy : Z;
  JWT_SECRET : option jsstring
}.

(** [process.env.JWT_SECRET || 'fallback-secret'] *)
Definition secret (A : Ambient) : jsstring :=
  match JWT_SECRET A with
  | Some s => if JS.truthy s then s else lit "fallback-secret"
  | None => lit "fallback-secret"
  end.

(** ** Language detection and the response generator *)

Definition detectLanguage (text : jsstring) : jsstring :=
  let banglaPattern := JS.testRange 0x0980 0x09FF in
  let arabicPattern := JS.testRange 0x0600 0x06FF in
  let chinesePattern := JS.testRange 0x4e00 0x9fff in
  if banglaPattern text then lit "bn"
  else if arabicPattern text then lit "ar"
  else if chinesePattern text then lit "zh"
  else lit "en".

Record AIResponse : Type := {
  content : jsstring;
  recommendations : list json
}.

Definition dessertResponse : AIResponse := {|
  content := lit "I found several great places for cheesecake near you! Here are the top recommendations:\n\n🍰 **Sweet Dreams Bakery** - 2.3 miles away\n- Fresh New York style cheesecake\n- Rating: 4.8/5\n- Special offer: 20% off today!\n\n🍰 **Cafe Delight** - 1.8 miles away\n- Artisanal cheesecakes\n- Rating: 4.6/5\n- Free delivery on orders over $25";
  recommendations := [
    JObj [field "name" (JStr (lit "Sweet Dreams Bakery")); field "distance" (JStr (lit "2.3 miles")); field "rating" (JNum 4.8%float); field "offer" (JStr (lit "20% off today"))];
    JObj [field "name" (JStr (lit "Cafe Delight")); field "distance" (JStr (lit "1.8 miles")); field "rating" (JNum 4.6%float); field "offer" (JStr (lit "Free delivery over $25"))]
  ]
|}.

Definition dealResponse : AIResponse := {|
  content := lit "Here are the best deals available right now:\n\n💰 **Flash Sale Alert!**\n- 50% off electronics at TechStore\n- Buy 2 get 1 free at Fashion Hub\n- Free shipping on orders over $50\n\n🔥 **Limited Time Offers:**\n- 30% off restaurant meals via FoodApp\n- 25% cashback on grocery shopping";
  recommendations := [
    JObj [field "name" (JStr (lit "TechStore")); field "offer" (JStr (lit "50% off electronics")); field "expires" (JStr (lit "24 hours"))];
    JObj [field "name" (JStr (lit "Fashion Hub")); field "offer" (JStr (lit "Buy 2 get 1 free")); field "expires" (JStr (lit "48 hours"))];
    JObj [field "name" (JStr (lit "FoodApp")); field "offer" (JStr (lit "30% off meals")); field "expires" (JStr (lit "This week"))]
  ]
|}.

Definition restaurantResponse : AIResponse := {|
  content := lit "I found some amazing restaurants near you:\n\n🍕 **Pizza Palace** - 1.2 miles\n- Authentic Italian pizza\n- Rating: 4.7/5\n- 15% off for new customers\n\n🍣 **Sushi Zen** - 2.1 miles\n- Fresh sushi and sashimi\n- Rating: 4.9/5\n- Happy hour: 3-6 PM daily";
  recommendations := [
    JObj [field "name" (JStr (lit "Pizza Palace")); field "cuisine" (JStr (lit "Italian")); field "distance" (JStr (lit "1.2 miles")); field "rating" (JNum 4.7%float)];
    JObj [field "name" (JStr (lit "Sushi Zen")); field "cuisine" (JStr (lit "Japanese")); field "distance" (JStr (lit "2.1 miles")); field "rating" (JNum 4.9%float)]
  ]
|}.

Definition defaultResponse : AIResponse := {|
  content := lit "I'm here to help you find the best deals, recommendations, and local businesses! You can ask me about:\n\n• Finding nearby restaurants, shops, or services\n• Getting the latest deals and offers\n• Personalized recommendations based on your preferences\n• Local business information and reviews\n\nWhat would you like to explore today?";
  recommendations := []
|}.

(** [generateAIResponse(message, language = 'en')]; the promise it returns
    always resolves, so the result is given directly. *)
Definition generateAIResponse (P : Platform) (message : jsstring)
    (language : option jsstring) : AIResponse :=
  let language := match language with Some l => l | None => lit "en" end in
  let lowerMessage := JS.toLowerCase (unicodeLower P) message in
  if JS.includes lowerMessage (lit "cheesecake")
     || JS.includes lowerMessage (lit "dessert") then dessertResponse
  else if JS.includes lowerMessage (lit "deal")
     || JS.includes lowerMessage (lit "offer")
     || JS.includes lowerMessage (lit "discount") then dealResponse
  else if JS.includes lowerMessage (lit "restaurant")
     || JS.includes lowerMessage (lit "food")
     || JS.includes lowerMessage (lit "eat") then restaurantResponse
  else defaultResponse.

(** ** The data model: the two Mongoose schemas *)

Module Location.
Record t : Type := {
  latitude : float;
  longitude : float;
  address : jsstring;
  lastUpdated : Time
}.
End Location.

(** A collection is a finite map from [_id] to document, so that [_id] is
    a key by construction.  A query filter is matched against the fields
    of the document, [_id] included.  Queries that are not by [_id] scan
    the documents in the (fixed, unspecified) order of [map_to_list].
    Fields that the storage layer adds on its own ([__v], the [_id] of an
    embedded message) are left out, and so are failures of the connection:
    a query on a collection always answers. *)
Module User.

(** [password] is [None] in a document from which a query has projected
    the field away ([select('-password')]); the schema requires it in
    every stored document. *)
Record doc : Type := {
  _id : ObjectId;
  name : jsstring;
  email : jsstring;
  password : option jsstring;
  preferredLanguage : jsstring;
  location : option Location.t;
  createdAt : Time
}.

(** [User.findById(id)] *)
Definition findById (users : gmap ObjectId doc) (id : ObjectId)
  : option doc :=
  match users !! id with
  | Some u => if bool_decide (_id u = id) then Some u else None
  | None => None
  end.

(** [User.findOne({ email })] *)
Definition findOne (users : gmap ObjectId doc) (e : jsstring)
  : option doc :=
  snd <$> List.find (fun kv => bool_decide (email (snd kv) = e))
                    (map_to_list users).

(** [.select('-password')] *)
Definition selectMinusPassword (u : doc) : doc :=
  {| _id := _id u; name := name u; email := email u; password := None;
     preferredLanguage := preferredLanguage u; location := location u;
     createdAt := createdAt u |}.

(** [user.save()] of a document made by [new User(...)]: an insertion,
    which the store refuses when the [_id] or the unique [email] is
    taken. *)
Definition save (users : gmap ObjectId doc) (u : doc)
  : option (gmap ObjectId doc) :=
  match users !! _id u, findOne users (email u) with
  | None, None => Some (<[_id u := u]> users)
  | _, _ => None
  end.

(** [User.findByIdAndUpdate(id, update, { new: true })]: the updated
    document, or [null] when there is none with this [_id]. *)
Definition findByIdAndUpdate (users : gmap ObjectId doc) (id : ObjectId)
    (update : doc -> doc) : option doc * gmap ObjectId doc :=
  match findById users id with
  | Some u => (Some (update u), <[id := update u]> users)
  | None => (None, users)
  end.

(** The update [{ name, preferredLanguage }]; an [undefined] field is not
    written. *)
Definition setProfile (n l : option jsstring) (u : doc) : doc :=
  {| _id := _id u;
     name := match n with Some n => n | None => name u end;
     email := email u; password := password u;
     preferredLanguage :=
       match l with Some l => l | None => preferredLanguage u end;
     location := location u; createdAt := createdAt u |}.

(** The updates [{ location: ... }] and [{ $unset: { location: 1 } }]. *)
Definition setLocation (loc : option Location.t) (u : doc) : doc :=
  {| _id := _id u; name := name u; email := email u;
     password := password u; preferredLanguage := preferredLanguage u;
     location := loc; createdAt := createdAt u |}.

End User.

Module Role.
Inductive t : Type := user | assistant.
End Role.

Module Chat.

Record Message : Type := {
  role : Role.t;
  content : jsstring;
  timestamp : Time;
  language : jsstring
}.

Record doc : Type := {
  _id : ObjectId;
  userId : ObjectId;
  title : jsstring;
  messages : list Message;
  createdAt : Time;
  updatedAt : Time
}.

(** [Chat.findOne({ _id, userId })] *)
Definition findOne (chats : gmap ObjectId doc) (id uid : ObjectId)
  : option doc :=
  match chats !! id with
  | Some c =>
    if bool_decide (_id c = id ∧ userId c = uid) then Some c else None
  | None => None
  end.

(** [sort({ updatedAt: -1 })], by insertion. *)
Fixpoint insertByUpdatedAt (c : doc) (l : list doc) : list doc :=
  match l with
  | [] => [c]
  | d :: r => if updatedAt d <? updatedAt c then c :: l
              else d :: insertByUpdatedAt c r
  end.

Definition sortByUpdatedAtDesc (l : list doc) : list doc :=
  fold_right insertByUpdatedAt [] l.

(** [Chat.find({ userId }).sort({ updatedAt: -1 })] *)
Definition find (chats : gmap ObjectId doc) (uid : ObjectId) : list doc :=
  sortByUpdatedAtDesc
    (List.filter (fun c => bool_decide (userId c = uid))
                 (map snd (map_to_list chats))).

(** [chat.save()] of a new document: refused when the [_id] is taken. *)
Definition insert (chats : gmap ObjectId doc) (c : doc)
  : option (gmap ObjectId doc) :=
  match chats !! _id c with
  | None => Some (<[_id c := c]> chats)
  | Some _ => None
  end.

(** [chat.save()] of a document that a query returned. *)
Definition save (chats : gmap ObjectId doc) (c : doc)
  : gmap ObjectId doc := <[_id c := c]> chats.

Definition setTitle (t : jsstring) (now : Time) (c : doc) : doc :=
  {| _id := _id c; userId := userId c; title := t;
     messages := messages c; createdAt := createdAt c;
     updatedAt := now |}.

(** [Chat.findOneAndUpdate({ _id, userId }, update, { new: true })] *)
Definition findOneAndUpdate (chats : gmap ObjectId doc)
    (id uid : ObjectId) (update : doc -> doc)
  : option doc * gmap ObjectId doc :=
  match findOne chats id uid with
  | Some c => (Some (update c), <[id := update c]> chats)
  | None => (None, chats)
  end.

(** [Chat.findOneAndDelete({ _id, userId })] *)
Definition findOneAndDelete (chats : gmap ObjectId doc)
    (id uid : ObjectId) : option doc * gmap ObjectId doc :=
  match findOne chats id uid with
  | Some c => (Some c, delete id chats)
  | None => (None, chats)
  end.

End Chat.

Record Store : Type := {
  users : gmap ObjectId User.doc;
  chats : gmap ObjectId Chat.doc
}.

Definition withUsers (st : Store) (us : gmap ObjectId User.doc) : Store :=
  {| users := us; chats := chats st |}.

Definition withChats (st : Store) (cs : gmap ObjectId Chat.doc) : Store :=
  {| users := users st; chats := cs |}.

(** ** Responses *)

(** What a handler passes to [res.json], before serialisation. *)
Inductive Payload : Type :=
| PError (error : jsstring)
| PMessage (message : jsstring)
| PAuth (token : jsstring) (u : User.doc)
| PChats (l : list Chat.doc)
| PChat (c : Chat.doc)
| PExchange (userMessage assistantMessage : Chat.Message)
            (recs : list json)
| PTitle (c : Chat.doc)
| PProfile (u : User.doc)
| PUser (u : option User.doc)
| PLocationSaved (loc : option Location.t)
| PLocation (loc : Location.t).

Record Response : Type := {
  status : Z;
  payload : Payload
}.

Definition jsonId (i : ObjectId) : json := JStr (toHexString i).

Definition jsonRole (r : Role.t) : json :=
  match r with
  | Role.user => JStr (lit "user")
  | Role.assistant => JStr (lit "assistant")
  end.

Definition jsonLocation (l : Location.t) : json :=
  JObj [field "latitude" (JNum (Location.latitude l));
        field "longitude" (JNum (Location.longitude l));
        field "address" (JStr (Location.address l));
        field "lastUpdated" (JDate (Location.lastUpdated l))].

Definition jsonOptLocation (l : option Location.t) : list (string * json) :=
  match l with
  | Some l => [field "location" (jsonLocation l)]
  | None => []
  end.

(** A user document as [res.json(user)] sends it: the fields it holds. *)
Definition jsonUser (u : User.doc) : json :=
  JObj ([field "_id" (jsonId (User._id u));
         field "name" (JStr (User.name u));
         field "email" (JStr (User.email u))]
        ++ match User.password u with
           | Some p => [field "password" (JStr p)]
           | None => []
           end
        ++ [field "preferredLanguage" (JStr (User.preferredLanguage u))]
        ++ jsonOptLocation (User.location u)
        ++ [field "createdAt" (JDate (User.createdAt u))]).

(** The [user] object of the register and login responses. *)
Definition jsonPublicUser (u : User.doc) : json :=
  JObj [field "id" (JStr (toHexString (User._id u)));
        field "name" (JStr (User.name u));
        field "email" (JStr (User.email u));
        field "preferredLanguage" (JStr (User.preferredLanguage u))].

(** The [userResponse] object of the profile route.  Its [location] is
    read with [user.location], which on a user without location is an
    empty object. *)
Definition jsonProfile (u : User.doc) : json :=
  JObj [field "id" (JStr (toHexString (User._id u)));
        field "name" (JStr (User.name u));
        field "email" (JStr (User.email u));
        field "preferredLanguage" (JStr (User.preferredLanguage u));
        field "location"
          (match User.location u with
           | Some l => jsonLocation l
           | None => JObj []
           end);
        field "createdAt" (JDate (User.createdAt u))].

Definition jsonMessage (m : Chat.Message) : json :=
  JObj [field "role" (jsonRole (Chat.role m));
        field "content" (JStr (Chat.content m));
        field "language" (JStr (Chat.language m));
        field "timestamp" (JDate (Chat.timestamp m))].

Definition jsonChat (c : Chat.doc) : json :=
  JObj [field "_id" (jsonId (Chat._id c));
        field "userId" (jsonId (Chat.userId c));
        field "title" (JStr (Chat.title c));
        field "messages" (JArr (map jsonMessage (Chat.messages c)));
        field "createdAt" (JDate (Chat.createdAt c));
        field "updatedAt" (JDate (Chat.updatedAt c))].

(** [.select('title createdAt updatedAt')] *)
Definition jsonChatSummary (c : Chat.doc) : json :=
  JObj [field "_id" (jsonId (Chat._id c));
        field "title" (JStr (Chat.title c));
        field "createdAt" (JDate (Chat.createdAt c));
        field "updatedAt" (JDate (Chat.updatedAt c))].

(** The body of a response. *)
Definition render (p : Payload) : json :=
  match p with
  | PError e => JObj [field "error" (JStr e)]
  | PMessage m => JObj [field "message" (JStr m)]
  | PAuth token u =>
      JObj [field "token" (JStr token); field "user" (jsonPublicUser u)]
  | PChats l => JArr (map jsonChatSummary l)
  | PChat c => jsonChat c
  | PExchange um am recs =>
      JObj [field "userMessage" (jsonMessage um);
            field "assistantMessage" (jsonMessage am);
            field "recommendations" (JArr recs)]
  | PTitle c =>
      JObj [field "message" (JStr (lit "Chat title updated successfully"));
            field "chat" (jsonChat c)]
  | PProfile u => jsonProfile u
  | PUser (Some u) => jsonUser u
  | PUser None => JNull
  | PLocationSaved loc =>
      JObj (field "message" (JStr (lit "Location saved successfully"))
            :: jsonOptLocation loc)
  | PLocation loc => jsonLocation loc
  end.

Definition body (r : Response) : json := render (payload r).

(** [res.status(code).json({ error })] *)
Definition fail (code : Z) (e : string) : Response :=
  {| status := code; payload := PError (lit e) |}.

(** [res.json(p)] and [res.status(code).json(p)] *)
Definition ok (p : Payload) : Response := {| status := 200; payload := p |}.
Definition created (p : Payload) : Response :=
  {| status := 201; payload := p |}.

(** The [try { ... } catch (error) { res.status(500)... }] around every
    handler: [None] is a thrown exception.  No handler writes to the store
    before the point where it can throw. *)
Definition catch (st : Store) (r : option (Response * Store))
  : Response * Store :=
  match r with
  | Some x => x
  | None => (fail 500 "Server error", st)
  end.

(** [!x] for a value that is a string or [undefined]. *)
Definition missing (x : option jsstring) : bool :=
  match x with
  | Some s => negb (JS.truthy s)
  | None => true
  end.

(** [!x] for a value that is a number or [undefined]. *)
Definition missingNumber (x : option float) : bool :=
  match x with
  | Some n => negb (numberTruthy n)
  | None => true
  end.

(** ** The authentication gate *)

(** The ambient of the code that runs after one clock reading. *)
Definition tick (A : Ambient) : Ambient :=
  {| clock := fun k => clock A (S k); freshId := freshId A;
     entropy := entropy A; JWT_SECRET := JWT_SECRET A |}.

(** [authMiddleware]: either the response it sends, or the user it puts in
    [req.user] before calling [next()]. *)
Definition authMiddleware (P : Platform) (A : Ambient) (st : Store)
    (authorization : option jsstring) : Response + User.doc :=
  let token :=
    option_map (fun h => JS.replace h (lit "Bearer ") (lit ""))
               authorization in
  match token with
  | Some token =>
    if negb (JS.truthy token) then inl (fail 401 "Access denied")
    else
      match jwt_verify P token (secret A) (clock A 0) with
      | Some decoded_userId =>
        match User.findById (users st) decoded_userId with
        | Some user => inr (User.selectMinusPassword user)
        | None => inl (fail 401 "Token is not valid")
        end
      | None => inl (fail 401 "Token is not valid")
      end
  | None => inl (fail 401 "Access denied")
  end.

(** ** Auth routes *)

(** [POST /api/auth/register] *)
Definition register (P : Platform) (A : Ambient) (st : Store)
    (name email password : option jsstring) : Response * Store :=
  catch st
    match name, email, password with
    | Some name, Some email, Some password =>
      if negb (JS.truthy name) || negb (JS.truthy email)
         || negb (JS.truthy password) then
        Some (fail 400 "Please provide all required fields", st)
      else if negb (isEmail P email) then
        Some (fail 400 "Please provide a valid email", st)
      else if JS.length password <? 6 then
        Some (fail 400 "Password must be at least 6 characters", st)
      else
        match User.findOne (users st) email with
        | Some existingUser => Some (fail 400 "User already exists", st)
        | None =>
          let salt := bcrypt_genSalt P 10 (entropy A) in
          let hashedPassword := bcrypt_hash P password salt in
          let user := {|
            User._id := freshId A;
            User.name := name;
            User.email := email;
            User.password := Some hashedPassword;
            User.preferredLanguage := lit "en";
            User.location := None;
            User.createdAt := clock A 0 |} in
          match User.save (users st) user with
          | Some users' =>
            let token :=
              jwt_sign P (User._id user) (secret A) (lit "7d") (clock A 1) in
            Some (created (PAuth token user), withUsers st users')
          | None => None
          end
        end
    | _, _, _ => Some (fail 400 "Please provide all required fields", st)
    end.

(** A JSON scalar, or [undefined] for a field that the body does not
    have. *)
Inductive scalar : Type :=
| SUndefined
| SNull
| SBool (b : bool)
| SNumber (x : float)
| SString (s : jsstring).

(** Truthiness of a scalar. *)
Definition scalarTruthy (v : scalar) : bool :=
  match v with
  | SUndefined | SNull => false
  | SBool b => b
  | SNumber x => numberTruthy x
  | SString s => JS.truthy s
  end.

(** [v.length < 6] for a truthy scalar: a number and a boolean have no
    [length], and [undefined < 6] is false. *)
Definition lengthBelow6 (v : scalar) : bool :=
  match v with
  | SString s => JS.length s <? 6
  | _ => false
  end.

(** [POST /api/auth/register] when the [password] of the body is any JSON
    scalar (the handler does not test the type of a field).  bcryptjs
    rejects a password that is not a string ("Illegal arguments"), and the
    handler's [catch] answers 500. *)
Definition registerScalar (P : Platform) (A : Ambient) (st : Store)
    (name email : option jsstring) (password : scalar) : Response * Store :=
  catch st
    match name, email with
    | Some name, Some email =>
      if negb (JS.truthy name) || negb (JS.truthy email)
         || negb (scalarTruthy password) then
        Some (fail 400 "Please provide all required fields", st)
      else if negb (isEmail P email) then
        Some (fail 400 "Please provide a valid email", st)
      else if lengthBelow6 password then
        Some (fail 400 "Password must be at least 6 characters", st)
      else
        match User.findOne (users st) email with
        | Some existingUser => Some (fail 400 "User already exists", st)
        | None =>
          let salt := bcrypt_genSalt P 10 (entropy A) in
          match password with
          | SString password =>
            let hashedPassword := bcrypt_hash P password salt in
            let user := {|
              User._id := freshId A;
              User.name := name;
              User.email := email;
              User.password := Some hashedPassword;
              User.preferredLanguage := lit "en";
              User.location := None;
              User.createdAt := clock A 0 |} in
            match User.save (users st) user with
            | Some users' =>
              let token :=
                jwt_sign P (User._id user) (secret A) (lit "7d")
                         (clock A 1) in
              Some (created (PAuth token user), withUsers st users')
            | None => None
            end
          | _ => None
          end
        end
    | _, _ => Some (fail 400 "Please provide all required fields", st)
    end.

(** [POST /api/auth/login] *)
Definition login (P : Platform) (A : Ambient) (st : Store)
    (email password : option jsstring) : Response * Store :=
  catch st
    match email, password with
    | Some email, Some password =>
      if negb (JS.truthy email) || negb (JS.truthy password) then
        Some (fail 400 "Please provide email and password", st)
      else
        match User.findOne (users st) email with
        | None => Some (fail 400 "Invalid credentials", st)
        | Some user =>
          match User.password user with
          | None => None
          | Some hash =>
            if negb (bcrypt_compare P password hash) then
              Some (fail 400 "Invalid credentials", st)
            else
              let token :=
                jwt_sign P (User._id user) (secret A) (lit "7d")
                         (clock A 0) in
              Some (ok (PAuth token user), st)
          end
        end
    | _, _ => Some (fail 400 "Please provide email and password", st)
    end.

(** ** Chat routes

    Each handler below runs behind [authMiddleware]; [req_user] is the
    document the gate has put in [req.user]. *)

(** [GET /api/chats] *)
Definition listChats (st : Store) (req_user : User.doc)
  : Response * Store :=
  let chats := Chat.find (chats st) (User._id req_user) in
  (ok (PChats chats), st).

(** [POST /api/chats] *)
Definition createChat (A : Ambient) (st : Store) (req_user : User.doc)
  : Response * Store :=
  catch st
    (let chat := {|
       Chat._id := freshId A;
       Chat.userId := User._id req_user;
       Chat.title := lit "New Chat";
       Chat.messages := [];
       Chat.createdAt := clock A 0;
       Chat.updatedAt := clock A 1 |} in
     match Chat.insert (chats st) chat with
     | Some chats' => Some (created (PChat chat), withChats st chats')
     | None => None
     end).

(** [GET /api/chats/:chatId] *)
Definition getChat (st : Store) (req_user : User.doc) (chatId : ObjectId)
  : Response * Store :=
  match Chat.findOne (chats st) chatId (User._id req_user) with
  | None => (fail 404 "Chat not found", st)
  | Some chat => (ok (PChat chat), st)
  end.

(** The title the message route derives from the first message. *)
Definition derivedTitle (message : jsstring) : jsstring :=
  JS.substring message 0 50
  ++ (if JS.length message >? 50 then lit "..." else lit "").

(** [POST /api/chats/:chatId/messages] *)
Definition postMessage (P : Platform) (A : Ambient) (st : Store)
    (req_user : User.doc) (chatId : ObjectId) (message : option jsstring)
  : Response * Store :=
  match message with
  | Some message =>
    if negb (JS.truthy message) || negb (JS.truthy (JS.trim message)) then
      (fail 400 "Message is required", st)
    else
      match Chat.findOne (chats st) chatId (User._id req_user) with
      | None => (fail 404 "Chat not found", st)
      | Some chat =>
        let detectedLanguage := detectLanguage message in
        let userMessage := {|
          Chat.role := Role.user;
          Chat.content := JS.trim message;
          Chat.language := detectedLanguage;
          Chat.timestamp := clock A 0 |} in
        let messages := Chat.messages chat ++ [userMessage] in
        let aiResponse :=
          generateAIResponse P message (Some detectedLanguage) in
        let assistantMessage := {|
          Chat.role := Role.assistant;
          Chat.content := content aiResponse;
          Chat.language := detectedLanguage;
          Chat.timestamp := clock A 1 |} in
        let messages := messages ++ [assistantMessage] in
        let title :=
          if (List.length messages =? 2)%nat then derivedTitle message
          else Chat.title chat in
        let chat := {|
          Chat._id := Chat._id chat;
          Chat.userId := Chat.userId chat;
          Chat.title := title;
          Chat.messages := messages;
          Chat.createdAt := Chat.createdAt chat;
          Chat.updatedAt := clock A 2 |} in
        (ok (PExchange userMessage assistantMessage
                       (recommendations aiResponse)),
         withChats st (Chat.save (chats st) chat))
      end
  | None => (fail 400 "Message is required", st)
  end.

(** [PUT /api/chats/:chatId/title] *)
Definition updateTitle (A : Ambient) (st : Store) (req_user : User.doc)
    (chatId : ObjectId) (title : option jsstring) : Response * Store :=
  match title with
  | Some title =>
    if negb (JS.truthy title) || negb (JS.truthy (JS.trim title)) then
      (fail 400 "Title is required", st)
    else
      match Chat.findOneAndUpdate (chats st) chatId (User._id req_user)
              (Chat.setTitle (JS.trim title) (clock A 0)) with
      | (None, _) => (fail 404 "Chat not found", st)
      | (Some chat, chats') => (ok (PTitle chat), withChats st chats')
      end
  | None => (fail 400 "Title is required", st)
  end.

(** [DELETE /api/chats/:chatId] *)
Definition deleteChat (st : Store) (req_user : User.doc)
    (chatId : ObjectId) : Response * Store :=
  match Chat.findOneAndDelete (chats st) chatId (User._id req_user) with
  | (None, _) => (fail 404 "Chat not found", st)
  | (Some chat, chats') =>
      (ok (PMessage (lit "Chat deleted successfully")), withChats st chats')
  end.

(** ** User profile and location routes *)

(** [GET /api/user/profile] *)
Definition getProfile (st : Store) (req_user : User.doc)
  : Response * Store :=
  catch st
    match User.findById (users st) (User._id req_user) with
    | Some user => Some (ok (PProfile (User.selectMinusPassword user)), st)
    | None => None
    end.

(** [PUT /api/user/profile]; a field that the body leaves [undefined] is
    not part of the update. *)
Definition updateProfile (st : Store) (req_user : User.doc)
    (name preferredLanguage : option jsstring) : Response * Store :=
  match User.findByIdAndUpdate (users st) (User._id req_user)
          (User.setProfile name preferredLanguage) with
  | (user, users') =>
      (ok (PUser (option_map User.selectMinusPassword user)),
       withUsers st users')
  end.

(** The template literal [`${latitude}, ${longitude}`] *)
Definition latLonString (P : Platform) (latitude longitude : float)
  : jsstring :=
  numberToString P latitude ++ lit ", " ++ numberToString P longitude.

(** [POST /api/user/location] *)
Definition setLocation (P : Platform) (A : Ambient) (st : Store)
    (req_user : User.doc) (latitude longitude : option float)
    (address : option jsstring) : Response * Store :=
  catch st
    match latitude, longitude with
    | Some latitude, Some longitude =>
      if negb (numberTruthy latitude) || negb (numberTruthy longitude) then
        Some (fail 400 "Latitude and longitude are required", st)
      else
        let location := {|
          Location.latitude := latitude;
          Location.longitude := longitude;
          Location.address :=
            match address with
            | Some a =>
              if JS.truthy a then a else latLonString P latitude longitude
            | None => latLonString P latitude longitude
            end;
          Location.lastUpdated := clock A 0 |} in
        match User.findByIdAndUpdate (users st) (User._id req_user)
                (User.setLocation (Some location)) with
        | (Some user, users') =>
            Some (ok (PLocationSaved
                        (User.location (User.selectMinusPassword user))),
                  withUsers st users')
        | (None, _) => None
        end
    | _, _ => Some (fail 400 "Latitude and longitude are required", st)
    end.

(** [GET /api/user/location] *)
Definition getLocation (st : Store) (req_user : User.doc)
  : Response * Store :=
  catch st
    match User.findById (users st) (User._id req_user) with
    | Some user =>
      match User.location user with
      | Some loc =>
        if negb (numberTruthy (Location.latitude loc)) then
          Some (fail 404 "No location data found", st)
        else Some (ok (PLocation loc), st)
      | None => Some (fail 404 "No location data found", st)
      end
    | None => None
    end.

(** [DELETE /api/user/location] *)
Definition deleteLocation (st : Store) (req_user : User.doc)
  : Response * Store :=
  match User.findByIdAndUpdate (users st) (User._id req_user)
          (User.setLocation None) with
  | (_, users') =>
      (ok (PMessage (lit "Location data deleted successfully")),
       withUsers st users')
  end.

(** [GET /api/health] *)
Definition health (st : Store) : Response * Store :=
  (ok (PMessage (lit "Server is running!")), st).

(** ** The router *)

Inductive Route : Type :=
| PostRegister (name email password : option jsstring)
| PostLogin (email password : option jsstring)
| GetChats
| PostChats
| GetChat (chatId : ObjectId)
| PostMessages (chatId : ObjectId) (message : option jsstring)
| PutTitle (chatId : ObjectId) (title : option jsstring)
| DeleteChat (chatId : ObjectId)
| GetProfile
| PutProfile (name preferredLanguage : option jsstring)
| PostLocation (latitude longitude : option float)
               (address : option jsstring)
| GetLocation
| DeleteLocation
| GetHealth.

Record Request : Type := {
  authorization : option jsstring;
  route : Route
}.

(** A route registered with [authMiddleware] in front of its handler. *)
Definition protected (P : Platform) (A : Ambient) (st : Store)
    (authorization : option jsstring)
    (handler : Ambient -> User.doc -> Response * Store)
  : Response * Store :=
  match authMiddleware P A st authorization with
  | inl response => (response, st)
  | inr req_user => handler (tick A) req_user
  end.

Definition serve (P : Platform) (A : Ambient) (st : Store) (req : Request)
  : Response * Store :=
  let auth := protected P A st (authorization req) in
  match route req with
  | PostRegister name email password => register P A st name email password
  | PostLogin email password => login P A st email password
  | GetChats => auth (fun _ u => listChats st u)
  | PostChats => auth (fun A u => createChat A st u)
  | GetChat chatId => auth (fun _ u => getChat st u chatId)
  | PostMessages chatId message =>
      auth (fun A u => postMessage P A st u chatId message)
  | PutTitle chatId title => auth (fun A u => updateTitle A st u chatId title)
  | DeleteChat chatId => auth (fun _ u => deleteChat st u chatId)
  | GetProfile => auth (fun _ u => getProfile st u)
  | PutProfile name preferredLanguage =>
      auth (fun _ u => updateProfile st u name preferredLanguage)
  | PostLocation latitude longitude address =>
      auth (fun A u => setLocation P A st u latitude longitude address)
  | GetLocation => auth (fun _ u => getLocation st u)
  | DeleteLocation => auth (fun _ u => deleteLocation st u)
  | GetHealth => health st
  end.

(** ** A small platform and store for closed examples

    Stand-ins with the shape of the real libraries: a "hash" that puts a
    dollar sign and the salt before the password, tokens that are the one
    code unit [userId + 1]. *)

Definition demoPlatform : Platform := {|
  unicodeLower := fun s => s;
  numberToString := fun _ => lit "0";
  isEmail := fun s => JS.includes s (lit "@");
  bcrypt_genSalt := fun _ _ => lit "salt.";
  bcrypt_hash := fun p s => 36 :: s ++ p;
  bcrypt_compare := fun p h => bool_decide (h = 36 :: lit "salt." ++ p);
  jwt_sign := fun uid _ _ _ => [Z.of_N uid + 1];
  jwt_verify := fun tok _ _ =>
    match tok with
    | [z] => if 0 <? z then Some (Z.to_N (z - 1)) else None
    | _ => None
    end
|}.

Definition demoAmbient : Ambient := {|
  clock := fun k => 1000 + Z.of_nat k;
  freshId := 7%N;
  entropy := 0;
  JWT_SECRET := None
|}.

Definition alice : User.doc := {|
  User._id := 1%N; User.name := lit "Alice";
  User.email := lit "alice@example.com";
  User.password := Some (36 :: lit "salt." ++ lit "wonderland");
  User.preferredLanguage := lit "en"; User.location := None;
  User.createdAt := 10 |}.

Definition bob : User.doc := {|
  User._id := 2%N; User.name := lit "Bob";
  User.email := lit "bob@example.com";
  User.password := Some (36 :: lit "salt." ++ lit "builder");
  User.preferredLanguage := lit "en"; User.location := None;
  User.createdAt := 11 |}.

(** An empty chat of Bob's. *)
Definition bobsChat : Chat.doc := {|
  Chat._id := 5%N; Chat.userId := 2%N; Chat.title := lit "New Chat";
  Chat.messages := []; Chat.createdAt := 20; Chat.updatedAt := 20 |}.

Definition demoStore : Store := {|
  users := <[1%N := alice]> (<[2%N := bob]> ∅);
  chats := <[5%N := bobsChat]> ∅
|}.

(** The [Authorization] headers of Alice and Bob on [demoPlatform]. *)
Definition aliceAuth : option jsstring := Some (lit "Bearer " ++ [2]).
Definition bobAuth : option jsstring := Some (lit "Bearer " ++ [3]).

(** ** Vocabulary of the properties *)

(** Some code unit of [t] lies in the range [lo..hi]. *)
Definition hasUnitIn (lo hi : Z) (t : jsstring) : Prop :=
  exists c, In c t /\ lo <= c <= hi.

(** The JSON value has a property named [k], at any depth. *)
Fixpoint mentions (k : string) (j : json) : bool :=
  match j with
  | JArr items => existsb (mentions k) items
  | JObj fields =>
      existsb (fun '(k', v) => String.eqb k' k || mentions k v) fields
  | _ => false
  end.

(** The chat documents a response carries. *)
Definition payloadChats (p : Payload) : list Chat.doc :=
  match p with
  | PChats l => l
  | PChat c => [c]
  | PTitle c => [c]
  | _ => []
  end.

(** A message list made of exchanges: a user message, then an assistant
    message with the same language, and so on. *)
Inductive Exchanges : list Chat.Message -> Prop :=
| Exchanges_nil : Exchanges []
| Exchanges_cons u a rest :
    Chat.role u = Role.user ->
    Chat.role a = Role.assistant ->
    Chat.language a = Chat.language u ->
    Chat.language u = detectLanguage (Chat.content u) ->
    Exchanges rest ->
    Exchanges (u :: a :: rest).

(** The stores the server can be in: it starts with empty collections and
    serves one request after the other. *)
Inductive reachable (P : Platform) : Store -> Prop :=
| reachable_init : reachable P {| users := ∅; chats := ∅ |}
| reachable_serve st A req :
    reachable P st -> reachable P (snd (serve P A st req)).

(** What is assumed of bcrypt: the hash of a password is never the
    password itself. *)
Definition hashNeverIdentity (P : Platform) : Prop :=
  forall password salt, bcrypt_hash P password salt <> password.

(** Every chat of the collection is made of exchanges. *)
Definition chatsOk (cs : gmap ObjectId Chat.doc) : Prop :=
  forall k c, cs !! k = Some c -> Exchanges (Chat.messages c).

(** [!x || !x.trim()], the test of the title and message routes. *)
Definition blank (x : option jsstring) : bool :=
  match x with
  | Some s => negb (JS.truthy s) || negb (JS.truthy (JS.trim s))
  | None => true
  end.

(** The chats that do not belong to [uid] are in [cs'] as they are in
    [cs]. *)
Definition othersKept (uid : ObjectId) (cs cs' : gmap ObjectId Chat.doc)
  : Prop :=
  forall k c, cs !! k = Some c -> Chat.userId c <> uid -> cs' !! k = Some c.

(** A handler's answer carries chats of the caller only, and leaves the
    chats of the others in place. *)
Definition isolated (uid : ObjectId) (st : Store) (r : Response * Store)
  : Prop :=
  othersKept uid (chats st) (chats (snd r)) /\
  forall c, In c (payloadChats (payload (fst r))) -> Chat.userId c = uid.

(** A payload whose user document has no password and whose
    recommendations have no property of that name. *)
Definition clean (p : Payload) : Prop :=
  match p with
  | PUser (Some u) => User.password u = None
  | PExchange _ _ recs => existsb (mentions "password") recs = false
  | _ => True
  end.

(** The conditions under which the register route refuses a body: a
    field is missing or empty, the email is not one, the password has
    fewer than six code units, or the email is that of a stored user. *)
Definition registrationRejected (P : Platform) (st : Store)
    (name email password : option jsstring) : Prop :=
  missing name = true \/ missing email = true \/ missing password = true \/
  (exists e, email = Some e /\ isEmail P e = false) \/
  (exists p, password = Some p /\ JS.length p < 6) \/
  (exists e id u, email = Some e /\ users st !! id = Some u /\
                  User.email u = e).

(** The payload is the [{ error }] object. *)
Definition isError (p : Payload) : bool :=
  match p with
  | PError _ => true
  | _ => false
  end.

(** The routes that are registered without [authMiddleware]. *)
Definition isPublic (r : Route) : bool :=
  match r with
  | PostRegister _ _ _ | PostLogin _ _ | GetHealth => true
  | _ => false
  end.

(** The routes whose handler only reads. *)
Definition readOnly (r : Route) : bool :=
  match r with
  | PostLogin _ _ | GetChats | GetChat _ | GetProfile | GetLocation
  | GetHealth => true
  | _ => false
  end.

(** What identifies a user and lets them in: the [_id], the email, the
    password field and the creation time. *)
Definition sameIdentity (u u' : User.doc) : Prop :=
  User._id u' = User._id u /\ User.email u' = User.email u /\
  User.password u' = User.password u /\
  User.createdAt u' = User.createdAt u.

(** Every user of [us] is in [us'] with the same identity. *)
Definition usersKept (us us' : gmap ObjectId User.doc) : Prop :=
  forall id u, us !! id = Some u ->
               exists u', us' !! id = Some u' /\ sameIdentity u u'.

(** The password field holds a bcrypt hash of a password of six code
    units or more, under a salt of [genSalt(10)]. *)
Definition hashed (P : Platform) (u : User.doc) : Prop :=
  exists p e, 6 <= JS.length p /\
              User.password u
              = Some (bcrypt_hash P p (bcrypt_genSalt P 10 e)).

(** The ways one request changes the store. *)
Inductive Effect (P : Platform) (st : Store) : Store -> Prop :=
| Effect_none : Effect P st st
| Effect_newUser u :
    users st !! User._id u = None ->
    User.findOne (users st) (User.email u) = None ->
    hashed P u -> isEmail P (User.email u) = true ->
    Effect P st (withUsers st (<[User._id u := u]> (users st)))
| Effect_updateUser id u u' :
    User.findById (users st) id = Some u ->
    sameIdentity u u' ->
    Effect P st (withUsers st (<[id := u']> (users st)))
| Effect_newChat c :
    chats st !! Chat._id c = None ->
    is_Some (users st !! Chat.userId c) ->
    Chat.title c <> [] -> Chat.messages c = [] ->
    Effect P st (withChats st (<[Chat._id c := c]> (chats st)))
| Effect_updateChat id c c' :
    chats st !! id = Some c -> Chat._id c = id ->
    Chat._id c' = id -> Chat.userId c' = Chat.userId c ->
    Chat.title c' = Chat.title c \/ Chat.title c' <> [] ->
    (forall m, In m (Chat.messages c') ->
               In m (Chat.messages c) \/ Chat.content m <> []) ->
    Effect P st (withChats st (<[id := c']> (chats st)))
| Effect_deleteChat id :
    Effect P st (withChats st (delete id (chats st))).

(** The shape every store the server reaches has: documents are stored
    under their own [_id]; every user has a valid email that no other user
    has and a hashed password; every chat belongs to a stored user, has a
    title and has no message without content. *)
Record wellFormed (P : Platform) (st : Store) : Prop := {
  wf_user_key :
    forall k u, users st !! k = Some u -> User._id u = k;
  wf_user_hashed :
    forall k u, users st !! k = Some u -> hashed P u;
  wf_user_email :
    forall k u, users st !! k = Some u -> isEmail P (User.email u) = true;
  wf_email_unique :
    forall k1 k2 u1 u2,
      users st !! k1 = Some u1 -> users st !! k2 = Some u2 ->
      User.email u1 = User.email u2 -> k1 = k2;
  wf_chat_key :
    forall k c, chats st !! k = Some c -> Chat._id c = k;
  wf_chat_owner :
    forall k c, chats st !! k = Some c ->
                is_Some (users st !! Chat.userId c);
  wf_chat_title :
    forall k c, chats st !! k = Some c -> Chat.title c <> [];
  wf_chat_content :
    forall k c m, chats st !! k = Some c -> In m (Chat.messages c) ->
                  Chat.content m <> []
}.

(** One of the keywords occurs in the text. *)
Definition mentionsAny (text : jsstring) (keywords : list string) : Prop :=
  exists k, In k keywords /\ exists pre post, text = pre ++ lit k ++ post.

(** ** Strings as the database holds them

    MongoDB keeps a string as UTF-8, in which half of a surrogate pair
    cannot be written: a document read back has U+FFFD in the place of
    every unpaired surrogate.  The collections above keep the strings as
    the handlers built them; [toWellFormed] and [asStored] give the form
    in which the database holds them. *)






(** The conditions of refusal of the register route, on fields that are
    strings or absent: a field is absent or the empty string, the
    validator does not take the email, the password has fewer than six
    code units, or a stored user has the email. *)
Definition registrationRefused (P : Platform) (st : Store)
    (name email password : option jsstring) : Prop :=
  name = None \/ name = Some [] \/
  email = None \/ email = Some [] \/
  password = None \/ password = Some [] \/
  (exists e, email = Some e /\ isEmail P e = false) \/
  (exists p, password = Some p /\ (List.length p < 6)%nat) \/
  (exists e id u, email = Some e /\ users st !! id = Some u /\
                  User.email u = e).

(** * Properties *)

(** ** String built-ins *)

Lemma startsWith_spec (p s : jsstring) :
  JS.startsWith s p = true <-> exists post, s = p ++ post.
Proof.
  revert s. induction p as [|y p IH]; intros s.
  - destruct s; simpl; split; eauto.
  - destruct s as [|x s]; simpl.
    + split; [discriminate | intros [post H]; discriminate].
    + rewrite andb_true_iff, Z.eqb_eq, IH. split.
      * intros [-> [post ->]]. eauto.
      * intros [post H]. injection H as -> ->. eauto.
Qed.

Lemma includes_spec (s p : jsstring) :
  JS.includes s p = true <-> exists pre post, s = pre ++ p ++ post.
Proof.
  induction s as [|x s IH].
  - change (JS.includes [] p) with (JS.startsWith [] p || false).
    rewrite orb_false_r, startsWith_spec. split.
    + intros [post H]. exists [], post. exact H.
    + intros [pre [post H]]. destruct pre; [eauto | discriminate].
  - change (JS.includes (x :: s) p)
      with (JS.startsWith (x :: s) p || JS.includes s p).
    rewrite orb_true_iff, startsWith_spec, IH. split.
    + intros [[post H] | [pre [post H]]].
      * exists [], post. exact H.
      * exists (x :: pre), post. simpl. now rewrite H.
    + intros [pre [post H]]. destruct pre as [|y pre]; simpl in H.
      * left. eauto.
      * right. injection H as _ H. eauto.
Qed.

Lemma testRange_spec (lo hi : Z) (s : jsstring) :
  JS.testRange lo hi s = true <-> exists c, In c s /\ lo <= c <= hi.
Proof.
  unfold JS.testRange. rewrite existsb_exists.
  split; intros [c [Hin Hc]]; exists c; split; try assumption; lia.
Qed.

Lemma substring_prefix (s : jsstring) (n : nat) :
  JS.substring s 0 n = firstn n s.
Proof.
  unfold JS.substring.
  rewrite !Nat.min_0_l, Nat.max_0_l. cbn [skipn].
  destruct (Nat.le_gt_cases n (List.length s)) as [H | H].
  - now rewrite Nat.min_l by lia.
  - rewrite Nat.min_r by lia. now rewrite !firstn_all2 by lia.
Qed.

(** ** Language detection *)

Lemma testRange_false (lo hi : Z) (s : jsstring) :
  JS.testRange lo hi s = false <-> ~ hasUnitIn lo hi s.
Proof.
  unfold hasUnitIn. rewrite <- testRange_spec.
  destruct (JS.testRange lo hi s); split; congruence.
Qed.

(** C4.  [detectLanguage] answers "bn" when the text has a code unit in
    the Bengali range, otherwise "ar" when it has one in the Arabic range,
    otherwise "zh" when it has one in the CJK range, otherwise "en"; the
    four sample inputs are mapped to "ar", "zh", "bn" and "en". *)
Theorem detectLanguage_first_match :
  (forall t : jsstring,
     (hasUnitIn 0x0980 0x09FF t /\ detectLanguage t = lit "bn") \/
     (~ hasUnitIn 0x0980 0x09FF t /\ hasUnitIn 0x0600 0x06FF t /\
      detectLanguage t = lit "ar") \/
     (~ hasUnitIn 0x0980 0x09FF t /\ ~ hasUnitIn 0x0600 0x06FF t /\
      hasUnitIn 0x4e00 0x9fff t /\ detectLanguage t = lit "zh") \/
     (~ hasUnitIn 0x0980 0x09FF t /\ ~ hasUnitIn 0x0600 0x06FF t /\
      ~ hasUnitIn 0x4e00 0x9fff t /\ detectLanguage t = lit "en"))
  /\ detectLanguage (lit "آسف") = lit "ar"
  /\ detectLanguage (lit "你好") = lit "zh"
  /\ detectLanguage (lit "আমি") = lit "bn"
  /\ detectLanguage (lit "hello") = lit "en".
Proof.
  split; [| repeat split; reflexivity].
  intros t. unfold detectLanguage.
  destruct (JS.testRange 0x0980 0x09FF t) eqn:Hbn.
  { left. split; [now apply testRange_spec | reflexivity]. }
  apply testRange_false in Hbn. right.
  destruct (JS.testRange 0x0600 0x06FF t) eqn:Har.
  { left. repeat split; [assumption | now apply testRange_spec]. }
  apply testRange_false in Har. right.
  destruct (JS.testRange 0x4e00 0x9fff t) eqn:Hzh.
  { left. repeat split; try assumption. now apply testRange_spec. }
  apply testRange_false in Hzh. right. repeat split; assumption.
Qed.

(** The sample inputs, as code units. *)
Example sample_texts :
  lit "آسف" = [0x0622; 0x0633; 0x0641] /\
  lit "你好" = [0x4f60; 0x597d] /\
  lit "আমি" = [0x0986; 0x09ae; 0x09bf].
Proof. repeat split; reflexivity. Qed.

(** ** The response generator *)

Lemma generateAIResponse_cheesecake (P : Platform) (l : option jsstring) :
  generateAIResponse P (lit "I want cheesecake") l = dessertResponse.
Proof. reflexivity. Qed.

(** C5.  For "I want cheesecake" the generator's content contains
    "Sweet Dreams Bakery" and it recommends exactly two places. *)
Theorem cheesecake_recommendations (P : Platform) (l : option jsstring) :
  let r := generateAIResponse P (lit "I want cheesecake") l in
  JS.includes (content r) (lit "Sweet Dreams Bakery") = true /\
  (exists pre post, content r = pre ++ lit "Sweet Dreams Bakery" ++ post) /\
  List.length (recommendations r) = 2%nat.
Proof.
  cbv zeta. rewrite generateAIResponse_cheesecake.
  assert (H : JS.includes (content dessertResponse)
                          (lit "Sweet Dreams Bakery") = true)
    by (vm_compute; reflexivity).
  split; [exact H |]. split; [now apply includes_spec | reflexivity].
Qed.

Lemma generateAIResponse_template (P : Platform) (m : jsstring)
    (l : option jsstring) :
  In (generateAIResponse P m l)
     [dessertResponse; dealResponse; restaurantResponse; defaultResponse].
Proof.
  unfold generateAIResponse.
  repeat match goal with
         | |- context [if ?b then _ else _] => destruct b
         end; simpl; auto.
Qed.

(** C9.  The generator ignores its language parameter: the result is the
    same for any two languages, it depends on the message through its
    lower-cased text only, and it is one of the four fixed templates. *)
Theorem generateAIResponse_ignores_language
    (P : Platform) (m : jsstring) (l1 l2 : option jsstring) :
  generateAIResponse P m l1 = generateAIResponse P m l2 /\
  (forall m' : jsstring,
     JS.toLowerCase (unicodeLower P) m' = JS.toLowerCase (unicodeLower P) m ->
     generateAIResponse P m' l1 = generateAIResponse P m l2) /\
  In (generateAIResponse P m l1)
     [dessertResponse; dealResponse; restaurantResponse; defaultResponse].
Proof.
  split; [reflexivity |]. split.
  - intros m' H. unfold generateAIResponse. now rewrite H.
  - apply generateAIResponse_template.
Qed.

(** ** The message exchange *)

Lemma findOne_Some (cs : gmap ObjectId Chat.doc) (id uid : ObjectId)
    (c : Chat.doc) :
  Chat.findOne cs id uid = Some c <->
  cs !! id = Some c /\ Chat._id c = id /\ Chat.userId c = uid.
Proof.
  unfold Chat.findOne. destruct (cs !! id) as [d|]; [| intuition congruence].
  case_bool_decide as H.
  - split; [intros [= ->]; tauto | intros [[= ->] _]; reflexivity].
  - split; [discriminate | intros [[= ->] ?]; tauto].
Qed.

Lemma findOne_None_other (cs : gmap ObjectId Chat.doc) (id uid : ObjectId)
    (c : Chat.doc) :
  cs !! id = Some c -> Chat.userId c <> uid -> Chat.findOne cs id uid = None.
Proof.
  intros Hc Hne. unfold Chat.findOne. rewrite Hc.
  case_bool_decide; [tauto | reflexivity].
Qed.

Lemma trim_accepts (m : jsstring) :
  JS.trim m <> [] ->
  negb (JS.truthy m) || negb (JS.truthy (JS.trim m)) = false.
Proof.
  intros H. destruct m as [|c m]; [now contradiction H |].
  destruct (JS.trim (c :: m)); [now contradiction H | reflexivity].
Qed.

Lemma trim_rejects (m : jsstring) :
  JS.trim m = [] ->
  negb (JS.truthy m) || negb (JS.truthy (JS.trim m)) = true.
Proof. intros ->. apply orb_true_r. Qed.

(** What the message route does with an accepted message for a chat of the
    caller's. *)
Lemma postMessage_accept (P : Platform) (A : Ambient) (st : Store)
    (U : User.doc) (chatId : ObjectId) (m : jsstring) (chat : Chat.doc) :
  JS.trim m <> [] ->
  Chat.findOne (chats st) chatId (User._id U) = Some chat ->
  let lang := detectLanguage m in
  let ai := generateAIResponse P m (Some lang) in
  let um := {| Chat.role := Role.user; Chat.content := JS.trim m;
               Chat.timestamp := clock A 0; Chat.language := lang |} in
  let am := {| Chat.role := Role.assistant; Chat.content := content ai;
               Chat.timestamp := clock A 1; Chat.language := lang |} in
  postMessage P A st U chatId (Some m) =
  (ok (PExchange um am (recommendations ai)),
   withChats st
     (<[chatId := {|
          Chat._id := chatId;
          Chat.userId := Chat.userId chat;
          Chat.title :=
            match Chat.messages chat with
            | [] => derivedTitle m
            | _ :: _ => Chat.title chat
            end;
          Chat.messages := Chat.messages chat ++ [um; am];
          Chat.createdAt := Chat.createdAt chat;
          Chat.updatedAt := clock A 2 |}]> (chats st))).
Proof.
  intros Hm Hfind. cbv zeta. unfold postMessage.
  rewrite (trim_accepts m Hm), Hfind.
  apply findOne_Some in Hfind as (_ & Hid & _).
  unfold Chat.save. cbn [Chat._id]. rewrite Hid.
  rewrite <- !app_assoc. cbn [app].
  replace (List.length (Chat.messages chat ++ _) =? 2)%nat
    with (match Chat.messages chat with [] => true | _ :: _ => false end).
  - destruct (Chat.messages chat); reflexivity.
  - rewrite length_app. cbn [List.length].
    destruct (Chat.messages chat) as [|x l]; [reflexivity |].
    symmetry. apply Nat.eqb_neq. cbn [List.length]. lia.
Qed.






(** The two sides of the cut, on Bob's empty chat: a message of 69 code
    units gets its first 50 and the dots, a message of 2 gets itself. *)
Example first_titles :
  (Chat.title <$>
     chats (snd (postMessage demoPlatform demoAmbient demoStore bob 5%N
       (Some (lit "Where can I find the best New York style cheesecake near the station?"))))
     !! 5%N)
  = Some (lit "Where can I find the best New York style cheesecak...") /\
  (Chat.title <$>
     chats (snd (postMessage demoPlatform demoAmbient demoStore bob 5%N
                             (Some (lit "hi")))) !! 5%N)
  = Some (lit "hi").
Proof. split; vm_compute; reflexivity. Qed.


(** What the title route does with a non-blank title for a chat of the
    caller's. *)
Lemma updateTitle_accept (A : Ambient) (st : Store) (U : User.doc)
    (chatId : ObjectId) (t : jsstring) (chat : Chat.doc) :
  JS.trim t <> [] ->
  Chat.findOne (chats st) chatId (User._id U) = Some chat ->
  updateTitle A st U chatId (Some t) =
  (ok (PTitle (Chat.setTitle (JS.trim t) (clock A 0) chat)),
   withChats st
     (<[chatId := Chat.setTitle (JS.trim t) (clock A 0) chat]> (chats st))).
Proof.
  intros Ht Hfind. unfold updateTitle, Chat.findOneAndUpdate.
  now rewrite (trim_accepts t Ht), Hfind.
Qed.

(** C10.  The title is derived whenever the exchange is the first of the
    chat, whatever the title was: a chat without messages whose title was
    set through the title route gets the derived title at its first
    exchange. *)
Theorem first_exchange_overwrites_custom_title (P : Platform)
    (A A' : Ambient) (st : Store) (U : User.doc) (chatId : ObjectId)
    (t m : jsstring) (chat : Chat.doc) :
  JS.trim t <> [] ->
  JS.trim m <> [] ->
  Chat.findOne (chats st) chatId (User._id U) = Some chat ->
  Chat.messages chat = [] ->
  let st1 := snd (updateTitle A st U chatId (Some t)) in
  let st2 := snd (postMessage P A' st1 U chatId (Some m)) in
  (exists c1, chats st1 !! chatId = Some c1 /\
              Chat.title c1 = JS.trim t /\ Chat.messages c1 = []) /\
  (exists c2, chats st2 !! chatId = Some c2 /\
              Chat.title c2 = derivedTitle m /\
              List.length (Chat.messages c2) = 2%nat).
Proof.
  intros Ht Hm Hfind Hempty st1 st2. subst st2 st1.
  rewrite (updateTitle_accept A st U chatId t chat Ht Hfind).
  cbn [snd].
  pose proof Hfind as (_ & Hid & Huid)%findOne_Some.
  set (c1 := Chat.setTitle (JS.trim t) (clock A 0) chat).
  assert (Hfind1 : Chat.findOne
            (chats (withChats st (<[chatId := c1]> (chats st))))
            chatId (User._id U) = Some c1).
  { apply findOne_Some. cbn [chats withChats].
    rewrite lookup_insert_eq. auto. }
  rewrite (postMessage_accept P A' _ U chatId m c1 Hm Hfind1).
  cbn [snd chats withChats]. split.
  - exists c1. rewrite lookup_insert_eq. auto.
  - eexists. rewrite lookup_insert_eq. split; [reflexivity |].
    cbn [Chat.title Chat.messages c1 Chat.setTitle]. rewrite Hempty.
    split; reflexivity.
Qed.

Lemma first_exchange_overwrites_custom_title_witness :
  let st1 := snd (updateTitle demoAmbient demoStore bob 5%N
                              (Some (lit "Plans"))) in
  let st2 := snd (postMessage demoPlatform demoAmbient st1 bob 5%N
                              (Some (lit "any deals today?"))) in
  (exists c1, chats st1 !! 5%N = Some c1 /\
              Chat.title c1 = JS.trim (lit "Plans") /\
              Chat.messages c1 = []) /\
  (exists c2, chats st2 !! 5%N = Some c2 /\
              Chat.title c2 = derivedTitle (lit "any deals today?") /\
              List.length (Chat.messages c2) = 2%nat).
Proof.
  apply (first_exchange_overwrites_custom_title demoPlatform demoAmbient
           demoAmbient demoStore bob 5%N (lit "Plans")
           (lit "any deals today?") bobsChat).
  - vm_compute. discriminate.
  - vm_compute. discriminate.
  - vm_compute. reflexivity.
  - reflexivity.
Defined.

(** ** Trimming does not change the detected language *)

Lemma existsb_trimStart (f : Z -> bool) (s : jsstring) :
  (forall c, JS.isWhiteSpace c = true -> f c = false) ->
  existsb f (JS.trimStart s) = existsb f s.
Proof.
  intros Hf. induction s as [|c s IH]; [reflexivity |].
  cbn [JS.trimStart]. destruct (JS.isWhiteSpace c) eqn:Hc; [| reflexivity].
  cbn [existsb]. now rewrite (Hf c Hc), IH.
Qed.

Lemma existsb_reverse (f : Z -> bool) (s : jsstring) :
  existsb f (rev s) = existsb f s.
Proof.
  induction s as [|c s IH]; [reflexivity |].
  cbn [rev existsb]. rewrite existsb_app, IH. cbn [existsb].
  rewrite orb_false_r. apply orb_comm.
Qed.

Lemma existsb_trim (f : Z -> bool) (s : jsstring) :
  (forall c, JS.isWhiteSpace c = true -> f c = false) ->
  existsb f (JS.trim s) = existsb f s.
Proof.
  intros Hf. unfold JS.trim, JS.trimEnd.
  rewrite existsb_reverse, (existsb_trimStart f _ Hf), existsb_reverse.
  now apply existsb_trimStart.
Qed.

Lemma whiteSpace_outside (lo hi c : Z) :
  0x0600 <= lo -> hi <= 0x09FF \/ (0x4e00 <= lo /\ hi <= 0x9fff) ->
  JS.isWhiteSpace c = true -> (lo <=? c) && (c <=? hi) = false.
Proof.
  intros Hlo Hhi Hc. apply andb_false_iff.
  rewrite !Z.leb_gt. unfold JS.isWhiteSpace in Hc.
  rewrite !orb_true_iff, andb_true_iff, !Z.eqb_eq, !Z.leb_le in Hc. lia.
Qed.

Lemma detectLanguage_trim (m : jsstring) :
  detectLanguage (JS.trim m) = detectLanguage m.
Proof.
  unfold detectLanguage, JS.testRange.
  rewrite !existsb_trim; [reflexivity | |  |];
    intros c Hc; apply whiteSpace_outside; trivial; lia.
Qed.

(** ** The shape of the message list *)

Lemma Exchanges_app (l : list Chat.Message) (u a : Chat.Message) :
  Exchanges l ->
  Chat.role u = Role.user -> Chat.role a = Role.assistant ->
  Chat.language a = Chat.language u ->
  Chat.language u = detectLanguage (Chat.content u) ->
  Exchanges (l ++ [u; a]).
Proof.
  intros Hl Hu Ha Hlang Hdet.
  induction Hl; cbn [app].
  - constructor; trivial. constructor.
  - constructor; trivial.
Qed.

Lemma Exchanges_even (l : list Chat.Message) :
  Exchanges l -> Nat.Even (List.length l).
Proof.
  induction 1 as [|u a rest _ _ _ _ _ [n IH]].
  - exists 0%nat. reflexivity.
  - exists (S n). cbn [List.length]. lia.
Qed.

Lemma Exchanges_roles (l : list Chat.Message) :
  Exchanges l ->
  forall (i : nat) (m : Chat.Message),
    l !! i = Some m ->
    Chat.role m = if Nat.even i then Role.user else Role.assistant.
Proof.
  induction 1 as [|u a rest Hu Ha _ _ _ IH]; intros i m Hi.
  - destruct i; discriminate.
  - destruct i as [|[|i]]; cbn in Hi.
    + now injection Hi as <-.
    + now injection Hi as <-.
    + change (Nat.even (S (S i))) with (Nat.even i). now apply IH.
Qed.

Lemma Exchanges_languages (l : list Chat.Message) :
  Exchanges l ->
  forall (i : nat) (u a : Chat.Message),
    l !! (2 * i)%nat = Some u -> l !! (2 * i + 1)%nat = Some a ->
    Chat.language a = Chat.language u /\
    Chat.language u = detectLanguage (Chat.content u).
Proof.
  induction 1 as [|u0 a0 rest _ _ Hl Hd _ IH]; intros i u a Hu Ha.
  - destruct i; discriminate.
  - destruct i as [|i].
    + cbn in Hu, Ha. injection Hu as <-. injection Ha as <-. auto.
    + replace (2 * S i)%nat with (S (S (2 * i))) in Hu by lia.
      replace (2 * S i + 1)%nat with (S (S (2 * i + 1))) in Ha by lia.
      cbn in Hu, Ha. now apply (IH i).
Qed.

Lemma chatsOk_insert (cs : gmap ObjectId Chat.doc) (k : ObjectId)
    (c : Chat.doc) :
  chatsOk cs -> Exchanges (Chat.messages c) -> chatsOk (<[k := c]> cs).
Proof.
  intros Hcs Hc k' c'. rewrite lookup_insert.
  case_decide; [intros [= <-]; exact Hc | apply Hcs].
Qed.

Lemma chatsOk_delete (cs : gmap ObjectId Chat.doc) (k : ObjectId) :
  chatsOk cs -> chatsOk (delete k cs).
Proof.
  intros Hcs k' c'. rewrite lookup_delete.
  case_decide; [discriminate | apply Hcs].
Qed.

(** ** Which routes write to the chat collection *)

Ltac handler_cases := repeat case_match; simplify_eq; cbn.

Lemma register_chats (P : Platform) (A : Ambient) (st : Store)
    (n e p : option jsstring) :
  chats (snd (register P A st n e p)) = chats st.
Proof. unfold register, catch. handler_cases; reflexivity. Qed.

Lemma login_chats (P : Platform) (A : Ambient) (st : Store)
    (e p : option jsstring) :
  chats (snd (login P A st e p)) = chats st.
Proof. unfold login, catch. handler_cases; reflexivity. Qed.

Lemma getProfile_chats (st : Store) (U : User.doc) :
  chats (snd (getProfile st U)) = chats st.
Proof. unfold getProfile, catch. handler_cases; reflexivity. Qed.

Lemma updateProfile_chats (st : Store) (U : User.doc)
    (n l : option jsstring) :
  chats (snd (updateProfile st U n l)) = chats st.
Proof. unfold updateProfile. handler_cases; reflexivity. Qed.

Lemma setLocation_chats (P : Platform) (A : Ambient) (st : Store)
    (U : User.doc) (lat lon : option float) (a : option jsstring) :
  chats (snd (setLocation P A st U lat lon a)) = chats st.
Proof. unfold setLocation, catch. handler_cases; reflexivity. Qed.

Lemma getLocation_chats (st : Store) (U : User.doc) :
  chats (snd (getLocation st U)) = chats st.
Proof. unfold getLocation, catch. handler_cases; reflexivity. Qed.

Lemma deleteLocation_chats (st : Store) (U : User.doc) :
  chats (snd (deleteLocation st U)) = chats st.
Proof. unfold deleteLocation. handler_cases; reflexivity. Qed.

Lemma getChat_store (st : Store) (U : User.doc) (chatId : ObjectId) :
  snd (getChat st U chatId) = st.
Proof. unfold getChat. handler_cases; reflexivity. Qed.

(** The chat routes change at most the document with the [chatId] of the
    request (or the fresh one), and only when it is the caller's. *)
Lemma createChat_chats (A : Ambient) (st : Store) (U : User.doc) :
  snd (createChat A st U) = st \/
  exists c, chats st !! freshId A = None /\
            Chat.userId c = User._id U /\ Chat.messages c = [] /\
            chats (snd (createChat A st U)) = <[freshId A := c]> (chats st).
Proof.
  unfold createChat, catch, Chat.insert. cbn [Chat._id].
  destruct (chats st !! freshId A) eqn:H; [left; reflexivity |].
  right. eexists. split_and!; cycle 3; reflexivity.
Qed.

Lemma postMessage_chats (P : Platform) (A : Ambient) (st : Store)
    (U : User.doc) (chatId : ObjectId) (message : option jsstring) :
  snd (postMessage P A st U chatId message) = st \/
  exists m c um am,
    message = Some m /\ JS.trim m <> [] /\
    Chat.findOne (chats st) chatId (User._id U) = Some c /\
    Chat.role um = Role.user /\ Chat.role am = Role.assistant /\
    Chat.content um = JS.trim m /\
    Chat.language um = detectLanguage m /\
    Chat.language am = detectLanguage m /\
    exists c',
      Chat.userId c' = Chat.userId c /\
      Chat.messages c' = Chat.messages c ++ [um; am] /\
      chats (snd (postMessage P A st U chatId message))
        = <[chatId := c']> (chats st).
Proof.
  destruct message as [m|]; [| left; reflexivity].
  destruct (decide (JS.trim m = [])) as [Hm | Hm].
  { left. unfold postMessage. now rewrite (trim_rejects m Hm). }
  destruct (Chat.findOne (chats st) chatId (User._id U)) as [c|] eqn:Hc.
  - right. rewrite (postMessage_accept P A st U chatId m c Hm Hc).
    exists m, c,
      {| Chat.role := Role.user; Chat.content := JS.trim m;
         Chat.timestamp := clock A 0; Chat.language := detectLanguage m |},
      {| Chat.role := Role.assistant;
         Chat.content :=
           content (generateAIResponse P m (Some (detectLanguage m)));
         Chat.timestamp := clock A 1; Chat.language := detectLanguage m |}.
    split_and!; try reflexivity; try assumption.
    eexists. split_and!; cycle 2; reflexivity.
  - left. unfold postMessage. now rewrite (trim_accepts m Hm), Hc.
Qed.

Lemma updateTitle_chats (A : Ambient) (st : Store) (U : User.doc)
    (chatId : ObjectId) (title : option jsstring) :
  snd (updateTitle A st U chatId title) = st \/
  exists c c',
    Chat.findOne (chats st) chatId (User._id U) = Some c /\
    Chat.userId c' = Chat.userId c /\
    Chat.messages c' = Chat.messages c /\
    chats (snd (updateTitle A st U chatId title)) = <[chatId := c']> (chats st).
Proof.
  destruct title as [t|]; [| left; reflexivity].
  destruct (decide (JS.trim t = [])) as [Ht | Ht].
  { left. unfold updateTitle. now rewrite (trim_rejects t Ht). }
  destruct (Chat.findOne (chats st) chatId (User._id U)) as [c|] eqn:Hc.
  - right. rewrite (updateTitle_accept A st U chatId t c Ht Hc).
    exists c. eexists. split_and!; cycle 3; reflexivity.
  - left. unfold updateTitle, Chat.findOneAndUpdate.
    now rewrite (trim_accepts t Ht), Hc.
Qed.

Lemma deleteChat_chats (st : Store) (U : User.doc) (chatId : ObjectId) :
  snd (deleteChat st U chatId) = st \/
  exists c,
    Chat.findOne (chats st) chatId (User._id U) = Some c /\
    chats (snd (deleteChat st U chatId)) = delete chatId (chats st).
Proof.
  unfold deleteChat, Chat.findOneAndDelete.
  destruct (Chat.findOne (chats st) chatId (User._id U)) as [c|] eqn:Hc.
  - right. exists c. split; reflexivity.
  - left. reflexivity.
Qed.

Lemma serve_chatsOk (P : Platform) (A : Ambient) (st : Store)
    (req : Request) :
  chatsOk (chats st) -> chatsOk (chats (snd (serve P A st req))).
Proof.
  intros Hok. destruct req as [h r]. unfold serve, protected.
  cbn [route authorization].
  destruct r;
    [ now rewrite register_chats | now rewrite login_chats | .. ];
    try (destruct (authMiddleware P A st h) as [resp | U]; [exact Hok |]).
  - exact Hok.
  - destruct (createChat_chats (tick A) st U)
      as [-> | (c & _ & _ & Hms & ->)]; [exact Hok |].
    apply chatsOk_insert; [exact Hok |]. rewrite Hms. constructor.
  - now rewrite getChat_store.
  - destruct (postMessage_chats P (tick A) st U chatId message)
      as [-> | (m & c & um & am & _ & _ & Hc & Hu & Ha & Hcont & Hlu & Hla
                & c' & _ & Hms & ->)]; [exact Hok |].
    apply chatsOk_insert; [exact Hok |]. rewrite Hms.
    apply findOne_Some in Hc as (Hc & _). apply Exchanges_app.
    + exact (Hok _ _ Hc).
    + exact Hu.
    + exact Ha.
    + congruence.
    + rewrite Hcont, detectLanguage_trim. exact Hlu.
  - destruct (updateTitle_chats (tick A) st U chatId title)
      as [-> | (c & c' & Hc & _ & Hms & ->)]; [exact Hok |].
    apply chatsOk_insert; [exact Hok |]. rewrite Hms.
    apply findOne_Some in Hc as (Hc & _). exact (Hok _ _ Hc).
  - destruct (deleteChat_chats st U chatId) as [-> | (c & _ & ->)];
      [exact Hok |].
    now apply chatsOk_delete.
  - now rewrite getProfile_chats.
  - now rewrite updateProfile_chats.
  - now rewrite setLocation_chats.
  - now rewrite getLocation_chats.
  - now rewrite deleteLocation_chats.
  - exact Hok.
Qed.

Lemma reachable_chatsOk (P : Platform) (st : Store) :
  reachable P st -> chatsOk (chats st).
Proof.
  induction 1 as [| st A req _ IH].
  - intros k c Hc. cbn in Hc. now rewrite lookup_empty in Hc.
  - now apply serve_chatsOk.
Qed.

(** C8.  In every store the server can reach, the messages of every chat
    come in exchanges: the list has even length, the message at an even
    index is the user's and the one at an odd index the assistant's, and
    the two messages of an exchange carry the same language, the one
    detected in the user's text.  An accepted message appends exactly one
    user message followed by one assistant message, both with the language
    detected in the message. *)
Theorem messages_come_in_exchanges (P : Platform) :
  (forall (st : Store) (k : ObjectId) (c : Chat.doc),
     reachable P st -> chats st !! k = Some c ->
     Exchanges (Chat.messages c) /\
     Nat.Even (List.length (Chat.messages c)) /\
     (forall (i : nat) (m : Chat.Message),
        Chat.messages c !! i = Some m ->
        Chat.role m = if Nat.even i then Role.user else Role.assistant) /\
     (forall (i : nat) (u a : Chat.Message),
        Chat.messages c !! (2 * i)%nat = Some u ->
        Chat.messages c !! (2 * i + 1)%nat = Some a ->
        Chat.language a = Chat.language u /\
        Chat.language u = detectLanguage (Chat.content u)))
  /\
  (forall (A : Ambient) (st : Store) (U : User.doc) (chatId : ObjectId)
          (m : jsstring) (c : Chat.doc),
     JS.trim m <> [] ->
     Chat.findOne (chats st) chatId (User._id U) = Some c ->
     exists (um am : Chat.Message) (c' : Chat.doc),
       chats (snd (postMessage P A st U chatId (Some m))) !! chatId
         = Some c' /\
       Chat.messages c' = Chat.messages c ++ [um; am] /\
       Chat.role um = Role.user /\ Chat.role am = Role.assistant /\
       Chat.language um = detectLanguage m /\
       Chat.language am = detectLanguage m).
Proof.
  split.
  - intros st k c Hst Hc.
    pose proof (reachable_chatsOk P st Hst k c Hc) as Hex.
    split; [exact Hex |]. split; [now apply Exchanges_even |].
    split; [now apply Exchanges_roles | now apply Exchanges_languages].
  - intros A st U chatId m c Hm Hc.
    rewrite (postMessage_accept P A st U chatId m c Hm Hc).
    do 3 eexists. split; [apply lookup_insert_eq |].
    cbn. repeat split.
Qed.

(** A reachable store in which a chat holds one exchange: Alice registers,
    opens a chat and sends a message. *)
Example reachable_exchange :
  exists (st : Store) (c : Chat.doc),
    reachable demoPlatform st /\ chats st !! 7%N = Some c /\
    map Chat.role (Chat.messages c) = [Role.user; Role.assistant] /\
    map Chat.language (Chat.messages c) = [lit "zh"; lit "zh"].
Proof.
  set (A := demoAmbient).
  set (A1 := {| clock := clock A; freshId := 1%N; entropy := 0;
                JWT_SECRET := None |}).
  set (r1 := {| authorization := None;
                route := PostRegister (Some (lit "Alice"))
                           (Some (lit "alice@example.com"))
                           (Some (lit "wonderland")) |}).
  set (r2 := {| authorization := aliceAuth; route := PostChats |}).
  set (r3 := {| authorization := aliceAuth;
                route := PostMessages 7%N (Some (lit " 你好 ")) |}).
  set (s0 := {| users := ∅; chats := ∅ |}).
  set (s1 := snd (serve demoPlatform A1 s0 r1)).
  set (s2 := snd (serve demoPlatform A s1 r2)).
  set (s3 := snd (serve demoPlatform A s2 r3)).
  assert (H3 : reachable demoPlatform s3)
    by (repeat apply reachable_serve; apply reachable_init).
  exists s3. eexists. split; [exact H3 |].
  split; [vm_compute; reflexivity |]. split; reflexivity.
Qed.

(** ** Ownership of chats *)

Lemma othersKept_refl (uid : ObjectId) (cs : gmap ObjectId Chat.doc) :
  othersKept uid cs cs.
Proof. intros k c Hc _. exact Hc. Qed.

Lemma othersKept_insert (uid : ObjectId) (cs : gmap ObjectId Chat.doc)
    (id : ObjectId) (c c' : Chat.doc) :
  Chat.findOne cs id uid = Some c -> othersKept uid cs (<[id := c']> cs).
Proof.
  intros (Hc & _ & Huid)%findOne_Some k d Hd Hne.
  rewrite lookup_insert_ne; [exact Hd |]. intros ->. congruence.
Qed.

Lemma othersKept_delete (uid : ObjectId) (cs : gmap ObjectId Chat.doc)
    (id : ObjectId) (c : Chat.doc) :
  Chat.findOne cs id uid = Some c -> othersKept uid cs (delete id cs).
Proof.
  intros (Hc & _ & Huid)%findOne_Some k d Hd Hne.
  rewrite lookup_delete_ne; [exact Hd |]. intros ->. congruence.
Qed.

Lemma othersKept_fresh (uid : ObjectId) (cs : gmap ObjectId Chat.doc)
    (id : ObjectId) (c' : Chat.doc) :
  cs !! id = None -> othersKept uid cs (<[id := c']> cs).
Proof.
  intros Hnone k d Hd _.
  rewrite lookup_insert_ne; [exact Hd |]. intros ->. congruence.
Qed.

Lemma In_insertByUpdatedAt (x c : Chat.doc) (l : list Chat.doc) :
  In c (Chat.insertByUpdatedAt x l) -> c = x \/ In c l.
Proof.
  induction l as [|d l IH]; cbn.
  - intros [<- | []]. now left.
  - destruct (Chat.updatedAt d <? Chat.updatedAt x); cbn.
    + intros [<- | H]; auto.
    + intros [<- | H]; auto. destruct (IH H); auto.
Qed.

Lemma In_sortByUpdatedAtDesc (c : Chat.doc) (l : list Chat.doc) :
  In c (Chat.sortByUpdatedAtDesc l) -> In c l.
Proof.
  induction l as [|d l IH]; cbn; [tauto |].
  intros [-> | H]%In_insertByUpdatedAt; auto.
Qed.

Lemma find_owner (cs : gmap ObjectId Chat.doc) (uid : ObjectId)
    (c : Chat.doc) :
  In c (Chat.find cs uid) -> Chat.userId c = uid.
Proof.
  unfold Chat.find. intros H%In_sortByUpdatedAtDesc.
  apply filter_In in H as [_ H]. now apply bool_decide_eq_true in H.
Qed.

Ltac no_chats :=
  unfold isolated; handler_cases;
  (split; [apply othersKept_refl | cbn; tauto]).

Lemma register_isolated (uid : ObjectId) (P : Platform) (A : Ambient)
    (st : Store) (n e p : option jsstring) :
  isolated uid st (register P A st n e p).
Proof. unfold register, catch. no_chats. Qed.

Lemma login_isolated (uid : ObjectId) (P : Platform) (A : Ambient)
    (st : Store) (e p : option jsstring) :
  isolated uid st (login P A st e p).
Proof. unfold login, catch. no_chats. Qed.

Lemma getProfile_isolated (uid : ObjectId) (st : Store) (U : User.doc) :
  isolated uid st (getProfile st U).
Proof. unfold getProfile, catch. no_chats. Qed.

Lemma updateProfile_isolated (uid : ObjectId) (st : Store) (U : User.doc)
    (n l : option jsstring) :
  isolated uid st (updateProfile st U n l).
Proof. unfold updateProfile. no_chats. Qed.

Lemma setLocation_isolated (uid : ObjectId) (P : Platform) (A : Ambient)
    (st : Store) (U : User.doc) (lat lon : option float)
    (a : option jsstring) :
  isolated uid st (setLocation P A st U lat lon a).
Proof. unfold setLocation, catch. no_chats. Qed.

Lemma getLocation_isolated (uid : ObjectId) (st : Store) (U : User.doc) :
  isolated uid st (getLocation st U).
Proof. unfold getLocation, catch. no_chats. Qed.

Lemma deleteLocation_isolated (uid : ObjectId) (st : Store)
    (U : User.doc) :
  isolated uid st (deleteLocation st U).
Proof. unfold deleteLocation. no_chats. Qed.

Lemma listChats_isolated (st : Store) (U : User.doc) :
  isolated (User._id U) st (listChats st U).
Proof.
  split; [apply othersKept_refl |]. cbn. intros c. apply find_owner.
Qed.

Lemma createChat_isolated (A : Ambient) (st : Store) (U : User.doc) :
  isolated (User._id U) st (createChat A st U).
Proof.
  unfold createChat, catch, Chat.insert. cbn [Chat._id].
  destruct (chats st !! freshId A) eqn:H.
  - split; [apply othersKept_refl | cbn; tauto].
  - split; cbn.
    + now apply othersKept_fresh.
    + intros c [<- | []]. reflexivity.
Qed.

Lemma getChat_isolated (st : Store) (U : User.doc) (chatId : ObjectId) :
  isolated (User._id U) st (getChat st U chatId).
Proof.
  unfold getChat.
  destruct (Chat.findOne (chats st) chatId (User._id U)) as [c|] eqn:Hc.
  - split; [apply othersKept_refl |]. cbn. intros c' [<- | []].
    now apply findOne_Some in Hc.
  - split; [apply othersKept_refl | cbn; tauto].
Qed.

Lemma postMessage_isolated (P : Platform) (A : Ambient) (st : Store)
    (U : User.doc) (chatId : ObjectId) (message : option jsstring) :
  isolated (User._id U) st (postMessage P A st U chatId message).
Proof.
  split.
  - destruct (postMessage_chats P A st U chatId message)
      as [-> | (m & c & um & am & _ & _ & Hc & _ & _ & _ & _ & _
                & c' & _ & _ & ->)].
    + apply othersKept_refl.
    + now apply othersKept_insert with c.
  - unfold postMessage. handler_cases; tauto.
Qed.

Lemma updateTitle_isolated (A : Ambient) (st : Store) (U : User.doc)
    (chatId : ObjectId) (title : option jsstring) :
  isolated (User._id U) st (updateTitle A st U chatId title).
Proof.
  split.
  - destruct (updateTitle_chats A st U chatId title)
      as [-> | (c & c' & Hc & _ & _ & ->)].
    + apply othersKept_refl.
    + now apply othersKept_insert with c.
  - unfold updateTitle, Chat.findOneAndUpdate.
    destruct title as [t|]; [| cbn; tauto].
    destruct (negb (JS.truthy t) || negb (JS.truthy (JS.trim t)));
      [cbn; tauto |].
    destruct (Chat.findOne (chats st) chatId (User._id U)) as [c|] eqn:Hc;
      [| cbn; tauto].
    cbn. intros c' [<- | []]. now apply findOne_Some in Hc.
Qed.

Lemma deleteChat_isolated (st : Store) (U : User.doc) (chatId : ObjectId) :
  isolated (User._id U) st (deleteChat st U chatId).
Proof.
  unfold deleteChat, Chat.findOneAndDelete.
  destruct (Chat.findOne (chats st) chatId (User._id U)) as [c|] eqn:Hc.
  - split; cbn; [now apply othersKept_delete with c | tauto].
  - split; [apply othersKept_refl | cbn; tauto].
Qed.

(** Behind the gate, every route answers and writes within the caller's
    own chats. *)
Lemma serve_isolated (P : Platform) (A : Ambient) (st : Store)
    (U : User.doc) (h : option jsstring) (r : Route) :
  authMiddleware P A st h = inr U ->
  isolated (User._id U) st
           (serve P A st {| authorization := h; route := r |}).
Proof.
  intros Hauth. unfold serve, protected. cbn [route authorization].
  rewrite Hauth. destruct r.
  - apply register_isolated.
  - apply login_isolated.
  - apply listChats_isolated.
  - apply createChat_isolated.
  - apply getChat_isolated.
  - apply postMessage_isolated.
  - apply updateTitle_isolated.
  - apply deleteChat_isolated.
  - apply getProfile_isolated.
  - apply updateProfile_isolated.
  - apply setLocation_isolated.
  - apply getLocation_isolated.
  - apply deleteLocation_isolated.
  - split; [apply othersKept_refl | cbn; tauto].
Qed.

(** C1, as amended.  Let [U] be the user the gate lets in and [C] a chat
    that is not [U]'s.  With the id of [C], the get and delete routes
    answer 404; the title route answers 400 when the title is missing or
    blank and 404 otherwise, and the message route likewise; the store is
    left as it was.  Whatever the route, [C] stays in the store unchanged
    and every chat in the response is one of [U]'s. *)
Theorem foreign_chat_is_not_found (P : Platform) (A : Ambient) (st : Store)
    (h : option jsstring) (U : User.doc) (chatId : ObjectId)
    (C : Chat.doc) :
  authMiddleware P A st h = inr U ->
  chats st !! chatId = Some C ->
  Chat.userId C <> User._id U ->
  let run r := serve P A st {| authorization := h; route := r |} in
  run (GetChat chatId) = (fail 404 "Chat not found", st) /\
  run (DeleteChat chatId) = (fail 404 "Chat not found", st) /\
  (forall title,
     run (PutTitle chatId title) =
     (if blank title then fail 400 "Title is required"
      else fail 404 "Chat not found", st)) /\
  (forall message,
     run (PostMessages chatId message) =
     (if blank message then fail 400 "Message is required"
      else fail 404 "Chat not found", st)) /\
  (forall r,
     chats (snd (run r)) !! chatId = Some C /\
     forall c, In c (payloadChats (payload (fst (run r)))) ->
               Chat.userId c = User._id U).
Proof.
  intros Hauth HC Hne run. subst run.
  pose proof (findOne_None_other _ _ _ _ HC Hne) as Hnone.
  unfold serve at 1 2 3 4, protected. cbn [route authorization].
  rewrite Hauth. split_and!.
  - unfold getChat. now rewrite Hnone.
  - unfold deleteChat, Chat.findOneAndDelete. now rewrite Hnone.
  - intros [t|]; [| reflexivity]. unfold updateTitle, blank.
    destruct (negb (JS.truthy t) || negb (JS.truthy (JS.trim t)));
      [reflexivity |].
    unfold Chat.findOneAndUpdate. now rewrite Hnone.
  - intros [m|]; [| reflexivity]. unfold postMessage, blank.
    destruct (negb (JS.truthy m) || negb (JS.truthy (JS.trim m)));
      [reflexivity |].
    now rewrite Hnone.
  - intros r. destruct (serve_isolated P A st U h r Hauth) as [Hkept Hown].
    split; [exact (Hkept _ _ HC Hne) | exact Hown].
Qed.

Lemma foreign_chat_is_not_found_witness :
  let run r := serve demoPlatform demoAmbient demoStore
                     {| authorization := aliceAuth; route := r |} in
  run (GetChat 5%N) = (fail 404 "Chat not found", demoStore) /\
  run (DeleteChat 5%N) = (fail 404 "Chat not found", demoStore) /\
  (forall title,
     run (PutTitle 5%N title) =
     (if blank title then fail 400 "Title is required"
      else fail 404 "Chat not found", demoStore)) /\
  (forall message,
     run (PostMessages 5%N message) =
     (if blank message then fail 400 "Message is required"
      else fail 404 "Chat not found", demoStore)) /\
  (forall r,
     chats (snd (run r)) !! 5%N = Some bobsChat /\
     forall c, In c (payloadChats (payload (fst (run r)))) ->
               Chat.userId c = 1%N).
Proof.
  apply (foreign_chat_is_not_found demoPlatform demoAmbient demoStore
           aliceAuth (User.selectMinusPassword alice) 5%N bobsChat).
  - vm_compute. reflexivity.
  - vm_compute. reflexivity.
  - vm_compute. discriminate.
Defined.

(** C1 as stated fails on the title route: Alice, who does not own Bob's
    chat, sends an empty title with its id and is answered 400, not 404. *)
Lemma foreign_chat_blank_title_is_400 :
  authMiddleware demoPlatform demoAmbient demoStore aliceAuth
    = inr (User.selectMinusPassword alice) /\
  chats demoStore !! 5%N = Some bobsChat /\
  Chat.userId bobsChat <> User._id (User.selectMinusPassword alice) /\
  fst (serve demoPlatform demoAmbient demoStore
             {| authorization := aliceAuth;
                route := PutTitle 5%N (Some (lit "")) |})
    = fail 400 "Title is required" /\
  status (fst (serve demoPlatform demoAmbient demoStore
                     {| authorization := aliceAuth;
                        route := PutTitle 5%N (Some (lit "")) |})) <> 404.
Proof.
  split_and!; vm_compute; (reflexivity || discriminate).
Qed.

(** ** The password field *)

Lemma mentions_messages (k : string) (l : list Chat.Message) :
  k = "password"%string ->
  existsb (mentions k) (map jsonMessage l) = false.
Proof.
  intros ->. induction l as [|m l IH]; [reflexivity |].
  cbn [map existsb]. rewrite IH. unfold jsonMessage.
  destruct (Chat.role m); reflexivity.
Qed.

Lemma mentions_summaries (l : list Chat.doc) :
  existsb (mentions "password") (map jsonChatSummary l) = false.
Proof. induction l as [|c l IH]; [reflexivity | exact IH]. Qed.

Lemma mentions_chat (c : Chat.doc) :
  mentions "password" (jsonChat c) = false.
Proof.
  cbn. now rewrite (mentions_messages "password" (Chat.messages c)).
Qed.

Lemma mentions_optLocation (l : option Location.t) (rest : list (string * json)) :
  existsb (fun '(k', v) => String.eqb k' "password" || mentions "password" v)
          (jsonOptLocation l ++ rest)
  = existsb (fun '(k', v) => String.eqb k' "password" || mentions "password" v)
            rest.
Proof. destruct l; reflexivity. Qed.

Lemma recommendations_clean (P : Platform) (m : jsstring)
    (l : option jsstring) :
  existsb (mentions "password") (recommendations (generateAIResponse P m l))
  = false.
Proof.
  destruct (generateAIResponse_template P m l)
    as [<- | [<- | [<- | [<- | []]]]]; reflexivity.
Qed.

Lemma render_clean (p : Payload) :
  clean p -> mentions "password" (render p) = false.
Proof.
  destruct p as [e | m | t u | l | c | um am recs | c | u | [u|] | loc | loc];
    cbn [clean]; intros H; try reflexivity.
  - apply mentions_summaries.
  - apply mentions_chat.
  - unfold render, jsonMessage.
    destruct (Chat.role um), (Chat.role am);
      cbn [mentions existsb field jsonRole];
      cbn [String.eqb Ascii.eqb Bool.eqb orb]; rewrite H; reflexivity.
  - cbn [render mentions existsb field]. rewrite mentions_chat. reflexivity.
  - unfold render, jsonProfile. destruct (User.location u); reflexivity.
  - unfold render, jsonUser. rewrite H.
    cbn [mentions app existsb field].
    cbn [String.eqb Ascii.eqb Bool.eqb orb].
    rewrite mentions_optLocation. reflexivity.
  - unfold render. cbn [mentions existsb field].
    cbn [String.eqb Ascii.eqb Bool.eqb orb].
    rewrite <- (app_nil_r (jsonOptLocation loc)).
    now rewrite mentions_optLocation.
Qed.

Lemma authMiddleware_clean (P : Platform) (A : Ambient) (st : Store)
    (h : option jsstring) (r : Response) :
  authMiddleware P A st h = inl r -> clean (payload r).
Proof.
  unfold authMiddleware. intros H. handler_cases; exact I.
Qed.

Lemma authMiddleware_projects (P : Platform) (A : Ambient) (st : Store)
    (h : option jsstring) (U : User.doc) :
  authMiddleware P A st h = inr U ->
  User.password U = None /\
  exists u, users st !! User._id U = Some u /\
            U = User.selectMinusPassword u.
Proof.
  unfold authMiddleware, User.findById. intros H. handler_cases.
  split; [reflexivity |]. eexists. split; [| reflexivity]. cbn.
  match goal with
  | Hd : bool_decide _ = true |- _ => apply bool_decide_eq_true in Hd
  end.
  congruence.
Qed.

Lemma serve_clean (P : Platform) (A : Ambient) (st : Store)
    (req : Request) :
  clean (payload (fst (serve P A st req))).
Proof.
  destruct req as [h r]. unfold serve, protected.
  cbn [route authorization].
  destruct r;
    try (destruct (authMiddleware P A st h) as [resp | U] eqn:Hauth;
         [exact (authMiddleware_clean _ _ _ _ _ Hauth) |]).
  - unfold register, catch. handler_cases; exact I.
  - unfold login, catch. handler_cases; exact I.
  - exact I.
  - unfold createChat, catch. handler_cases; exact I.
  - unfold getChat. handler_cases; exact I.
  - unfold postMessage.
    handler_cases; try exact I; apply recommendations_clean.
  - unfold updateTitle. handler_cases; exact I.
  - unfold deleteChat. handler_cases; exact I.
  - unfold getProfile, catch. handler_cases; exact I.
  - unfold updateProfile, User.findByIdAndUpdate.
    handler_cases; try exact I; reflexivity.
  - unfold setLocation, catch. handler_cases; exact I.
  - unfold getLocation, catch. handler_cases; exact I.
  - unfold deleteLocation. handler_cases; exact I.
  - exact I.
Qed.

Lemma register_created (P : Platform) (A : Ambient) (st : Store)
    (name email password : option jsstring) :
  status (fst (register P A st name email password)) = 201 ->
  exists n e p,
    name = Some n /\ email = Some e /\ password = Some p /\
    users st !! freshId A = None /\
    User.findOne (users st) e = None /\
    let u := {| User._id := freshId A; User.name := n; User.email := e;
                User.password :=
                  Some (bcrypt_hash P p (bcrypt_genSalt P 10 (entropy A)));
                User.preferredLanguage := lit "en";
                User.location := None; User.createdAt := clock A 0 |} in
    register P A st name email password =
    (created (PAuth (jwt_sign P (freshId A) (secret A) (lit "7d")
                              (clock A 1)) u),
     withUsers st (<[freshId A := u]> (users st))).
Proof.
  unfold register, catch, User.save. cbn [User._id User.email].
  intros H. handler_cases; try discriminate.
  do 3 eexists. split_and!; try reflexivity; assumption.
Qed.

(** C2.  No response of any route, success or error, has a property named
    [password]; and when a registration succeeds, the password field of
    the stored user is the bcrypt hash of the submitted password under a
    salt of [genSalt(10)], which (bcrypt never returning its input) is not
    the submitted password. *)
Theorem password_is_hashed_and_never_sent (P : Platform) :
  hashNeverIdentity P ->
  (forall (A : Ambient) (st : Store) (req : Request),
     mentions "password" (body (fst (serve P A st req))) = false) /\
  (forall (A : Ambient) (st : Store) (name email password : option jsstring),
     status (fst (register P A st name email password)) = 201 ->
     exists (plain : jsstring) (u : User.doc),
       password = Some plain /\
       users (snd (register P A st name email password)) !! freshId A
         = Some u /\
       User.password u
         = Some (bcrypt_hash P plain (bcrypt_genSalt P 10 (entropy A))) /\
       User.password u <> Some plain).
Proof.
  intros Hhash. split.
  - intros A st req. apply render_clean, serve_clean.
  - intros A st name email password H201.
    destruct (register_created P A st name email password H201)
      as (n & e & p & -> & -> & -> & _ & _ & Heq).
    cbv zeta in Heq. rewrite Heq. cbn [snd users withUsers].
    exists p. eexists. split; [reflexivity |].
    split; [apply lookup_insert_eq |]. cbn [User.password].
    split; [reflexivity |]. intros [= H]. exact (Hhash _ _ H).
Qed.

Lemma password_is_hashed_and_never_sent_witness :
  (forall (A : Ambient) (st : Store) (req : Request),
     mentions "password" (body (fst (serve demoPlatform A st req))) = false)
  /\
  (forall (A : Ambient) (st : Store) (name email password : option jsstring),
     status (fst (register demoPlatform A st name email password)) = 201 ->
     exists (plain : jsstring) (u : User.doc),
       password = Some plain /\
       users (snd (register demoPlatform A st name email password))
         !! freshId A = Some u /\
       User.password u
         = Some (bcrypt_hash demoPlatform plain
                   (bcrypt_genSalt demoPlatform 10 (entropy A))) /\
       User.password u <> Some plain).
Proof.
  apply (password_is_hashed_and_never_sent demoPlatform).
  intros p s H. apply (f_equal (@List.length Z)) in H.
  cbn in H. rewrite length_app in H. lia.
Defined.

(** A registration on the small platform: the response is 201 and the
    stored password is the hash. *)
Example register_carol :
  let r := register demoPlatform demoAmbient demoStore
             (Some (lit "Carol")) (Some (lit "carol@example.com"))
             (Some (lit "secret1")) in
  status (fst r) = 201 /\
  mentions "password" (body (fst r)) = false /\
  (User.password <$> users (snd r) !! 7%N)
    = Some (Some (36 :: lit "salt." ++ lit "secret1")).
Proof. vm_compute. repeat split. Qed.

(** ** Registration *)

Lemma findOne_email_None (us : gmap ObjectId User.doc) (e : jsstring) :
  User.findOne us e = None <->
  forall id u, us !! id = Some u -> User.email u <> e.
Proof.
  unfold User.findOne. split.
  - intros H id u Hu He.
    destruct (List.find _ (map_to_list us)) as [kv|] eqn:Hfind;
      [discriminate |].
    pose proof (find_none _ _ Hfind (id, u)) as Hnone.
    cbn in Hnone. rewrite bool_decide_eq_false in Hnone.
    apply Hnone; [| exact He].
    apply list_elem_of_In, elem_of_map_to_list. exact Hu.
  - intros H.
    destruct (List.find _ (map_to_list us)) as [[id u]|] eqn:Hfind;
      [| reflexivity].
    apply find_some in Hfind as [Hin He]. cbn in He.
    apply bool_decide_eq_true in He.
    apply list_elem_of_In, elem_of_map_to_list in Hin.
    destruct (H id u Hin He).
Qed.

Lemma findOne_email_Some (us : gmap ObjectId User.doc) (e : jsstring)
    (u : User.doc) :
  User.findOne us e = Some u ->
  exists id, us !! id = Some u /\ User.email u = e.
Proof.
  unfold User.findOne.
  destruct (List.find _ (map_to_list us)) as [[id u']|] eqn:Hfind;
    [| discriminate].
  intros [= <-]. apply find_some in Hfind as [Hin He]. cbn in He.
  apply bool_decide_eq_true in He.
  apply list_elem_of_In, elem_of_map_to_list in Hin. eauto.
Qed.

(** The two ways a registration ends when the [_id] of the new document is
    not in use. *)
Lemma register_cases (P : Platform) (A : Ambient) (st : Store)
    (name email password : option jsstring) :
  users st !! freshId A = None ->
  let r := register P A st name email password in
  (registrationRejected P st name email password /\
   status (fst r) = 400 /\ snd r = st)
  \/
  (~ registrationRejected P st name email password /\
   exists n e p,
     name = Some n /\ email = Some e /\ password = Some p /\
     let u := {| User._id := freshId A; User.name := n; User.email := e;
                 User.password :=
                   Some (bcrypt_hash P p (bcrypt_genSalt P 10 (entropy A)));
                 User.preferredLanguage := lit "en";
                 User.location := None; User.createdAt := clock A 0 |} in
     r = (created (PAuth (jwt_sign P (freshId A) (secret A) (lit "7d")
                                   (clock A 1)) u),
          withUsers st (<[freshId A := u]> (users st)))).
Proof.
  intros Hfresh r. subst r. unfold registrationRejected.
  destruct name as [n|]; [| left; cbn; tauto].
  destruct email as [e|]; [| left; cbn; tauto].
  destruct password as [p|]; [| left; cbn; tauto].
  unfold register, catch, User.save. cbn [User._id User.email missing].
  destruct (JS.truthy n) eqn:Hn; [| left; cbn; tauto].
  destruct (JS.truthy e) eqn:He; [| left; cbn; tauto].
  destruct (JS.truthy p) eqn:Hp; [| left; cbn; tauto].
  cbn [negb orb].
  destruct (isEmail P e) eqn:Hmail; cbn [negb];
    [| left; split; [| cbn; tauto]; right; right; right; left; eauto].
  destruct (JS.length p <? 6) eqn:Hlen.
  { left. split; [| cbn; tauto].
    do 4 right. left. exists p. split; [reflexivity | lia]. }
  destruct (User.findOne (users st) e) as [u|] eqn:Hfind.
  { left. split; [| cbn; tauto].
    apply findOne_email_Some in Hfind as (id & Hu & Hue).
    do 5 right. exists e, id, u. auto. }
  rewrite Hfresh. right. split.
  - intros [H | [H | [H | [H | [H | H]]]]]; try discriminate.
    + destruct H as (e' & [= <-] & H). congruence.
    + destruct H as (p' & [= <-] & H). lia.
    + destruct H as (e' & id & u & [= <-] & Hu & Hue).
      exact (proj1 (findOne_email_None _ _) Hfind id u Hu Hue).
  - exists n, e, p. split_and!; reflexivity.
Qed.

Lemma missing_spec (x : option jsstring) :
  missing x = true <-> x = None \/ x = Some [].
Proof.
  destruct x as [[|c s]|]; cbn; split; intros H; auto.
  - discriminate.
  - destruct H as [H | H]; discriminate.
Qed.

Lemma registrationRefused_spec (P : Platform) (st : Store)
    (name email password : option jsstring) :
  registrationRejected P st name email password <->
  registrationRefused P st name email password.
Proof.
  unfold registrationRejected, registrationRefused.
  rewrite !missing_spec. unfold JS.length.
  split.
  - intros [H | [H | [H | [H | [(p & Hp & Hlen) | H]]]]]; try tauto.
    do 7 right. left. exists p. split; [exact Hp | lia].
  - intros [H | [H | [H | [H | [H | [H | [H | [(p & Hp & Hlen) | H]]]]]]]];
      try tauto.
    do 4 right. left. exists p. split; [exact Hp | lia].
Qed.

(** The register route on a string password is [register]. *)
Lemma registerScalar_string (P : Platform) (A : Ambient) (st : Store)
    (name email : option jsstring) (p : jsstring) :
  registerScalar P A st name email (SString p)
  = register P A st name email (Some p).
Proof. destruct name, email; reflexivity. Qed.

Lemma registerScalar_undefined (P : Platform) (A : Ambient) (st : Store)
    (name email : option jsstring) :
  registerScalar P A st name email SUndefined
  = register P A st name email None.
Proof.
  unfold registerScalar, register.
  destruct name as [n|], email as [e|]; try reflexivity.
  cbn [scalarTruthy negb]. now rewrite orb_true_r.
Qed.

(** C6, as amended.  For a body whose name, email and password are
    strings or absent, and with an unused [_id] for the new document: the
    register route answers 400 exactly when a field is absent or empty,
    the email is not valid, the password has fewer than six code units, or
    the email is already registered, and then it stores nothing.
    Otherwise it answers 201 with a token signed for the new user with
    [expiresIn: '7d'] and the fields [id], [name], [email] and
    [preferredLanguage], and the store has one more user, under the new
    [_id], whose password field is the bcrypt hash of the password under a
    salt of [genSalt(10)]; the other users and the chats are as before. *)
Theorem register_contract (P : Platform) (A : Ambient) (st : Store)
    (name email password : option jsstring) :
  users st !! freshId A = None ->
  let r := register P A st name email password in
  (status (fst r) = 400 <-> registrationRefused P st name email password)
  /\ (status (fst r) = 400 -> snd r = st)
  /\ (~ registrationRefused P st name email password ->
      exists n e p,
        name = Some n /\ email = Some e /\ password = Some p /\
        let hashedPassword :=
          bcrypt_hash P p (bcrypt_genSalt P 10 (entropy A)) in
        let u := {| User._id := freshId A; User.name := n;
                    User.email := e; User.password := Some hashedPassword;
                    User.preferredLanguage := lit "en";
                    User.location := None; User.createdAt := clock A 0 |} in
        let token :=
          jwt_sign P (freshId A) (secret A) (lit "7d") (clock A 1) in
        status (fst r) = 201 /\
        body (fst r) =
          JObj [field "token" (JStr token);
                field "user"
                  (JObj [field "id" (JStr (toHexString (freshId A)));
                         field "name" (JStr n);
                         field "email" (JStr e);
                         field "preferredLanguage" (JStr (lit "en"))])] /\
        users (snd r) !! freshId A = Some u /\
        (forall k, k <> freshId A ->
                   users (snd r) !! k = users st !! k) /\
        chats (snd r) = chats st).
Proof.
  intros Hfresh r.
  destruct (register_cases P A st name email password Hfresh)
    as [(Hrej & H400 & Hst) | (Hnot & n & e & p & -> & -> & -> & Heq)];
    fold r in H400, Hst || fold r in Heq.
  - apply registrationRefused_spec in Hrej.
    split_and!; [tauto | auto | tauto].
  - rewrite registrationRefused_spec in Hnot.
    cbv zeta in Heq. rewrite Heq. cbn [fst snd status created].
    split_and!.
    + split; [discriminate | tauto].
    + discriminate.
    + intros _. exists n, e, p. cbn [users chats withUsers].
      split_and!; try reflexivity.
      * apply lookup_insert_eq.
      * intros k Hk. now rewrite lookup_insert_ne.
Qed.

Lemma register_contract_witness :
  let name := Some (lit "Carol") in
  let email := Some (lit "carol@example.com") in
  let password := Some (lit "secret1") in
  let r := register demoPlatform demoAmbient demoStore name email password in
  (status (fst r) = 400 <->
   registrationRefused demoPlatform demoStore name email password)
  /\ (status (fst r) = 400 -> snd r = demoStore)
  /\ (~ registrationRefused demoPlatform demoStore name email password ->
      exists n e p,
        name = Some n /\ email = Some e /\ password = Some p /\
        let hashedPassword :=
          bcrypt_hash demoPlatform p
            (bcrypt_genSalt demoPlatform 10 (entropy demoAmbient)) in
        let u := {| User._id := freshId demoAmbient; User.name := n;
                    User.email := e; User.password := Some hashedPassword;
                    User.preferredLanguage := lit "en";
                    User.location := None;
                    User.createdAt := clock demoAmbient 0 |} in
        let token :=
          jwt_sign demoPlatform (freshId demoAmbient) (secret demoAmbient)
                   (lit "7d") (clock demoAmbient 1) in
        status (fst r) = 201 /\
        body (fst r) =
          JObj [field "token" (JStr token);
                field "user"
                  (JObj [field "id"
                           (JStr (toHexString (freshId demoAmbient)));
                         field "name" (JStr n);
                         field "email" (JStr e);
                         field "preferredLanguage" (JStr (lit "en"))])] /\
        users (snd r) !! freshId demoAmbient = Some u /\
        (forall k, k <> freshId demoAmbient ->
                   users (snd r) !! k = users demoStore !! k) /\
        chats (snd r) = chats demoStore).
Proof.
  apply (register_contract demoPlatform demoAmbient demoStore
           (Some (lit "Carol")) (Some (lit "carol@example.com"))
           (Some (lit "secret1"))).
  vm_compute. reflexivity.
Defined.

(** Both outcomes on the small store: Carol's body is not refused, she is
    answered 201 and stored under the new [_id] with the hash; the same
    body with Alice's email is refused with 400 and nothing is stored. *)
Example register_both_outcomes :
  let carol := register demoPlatform demoAmbient demoStore
                 (Some (lit "Carol")) (Some (lit "carol@example.com"))
                 (Some (lit "secret1")) in
  let again := register demoPlatform demoAmbient demoStore
                 (Some (lit "Carol")) (Some (lit "alice@example.com"))
                 (Some (lit "secret1")) in
  ~ registrationRefused demoPlatform demoStore
      (Some (lit "Carol")) (Some (lit "carol@example.com"))
      (Some (lit "secret1")) /\
  status (fst carol) = 201 /\
  (User.email <$> users (snd carol) !! 7%N)
    = Some (lit "carol@example.com") /\
  (User.password <$> users (snd carol) !! 7%N)
    = Some (Some (36 :: lit "salt." ++ lit "secret1")) /\
  fst again = fail 400 "User already exists" /\
  snd again = demoStore.
Proof.
  cbv zeta. split.
  - rewrite <- registrationRefused_spec.
    destruct (register_cases demoPlatform demoAmbient demoStore
                (Some (lit "Carol")) (Some (lit "carol@example.com"))
                (Some (lit "secret1")))
      as [(_ & H400 & _) | (Hnot & _)];
      [vm_compute; reflexivity | | exact Hnot].
    vm_compute in H400. discriminate.
  - split_and!; vm_compute; reflexivity.
Qed.

(** C6 as stated fails on a password that is not a string.  Carol sends a
    valid name and email, not yet registered, and the number 1234567 as
    password: no field is absent or empty, the number passes
    [password.length < 6], bcrypt refuses it, and the answer is 500,
    neither 400 nor 201; nothing is stored. *)
Lemma register_number_password_is_500 :
  let r := registerScalar demoPlatform demoAmbient demoStore
             (Some (lit "Carol")) (Some (lit "carol@example.com"))
             (SNumber 1234567%float) in
  scalarTruthy (SNumber 1234567%float) = true /\
  isEmail demoPlatform (lit "carol@example.com") = true /\
  (forall id u, users demoStore !! id = Some u ->
                User.email u <> lit "carol@example.com") /\
  users demoStore !! freshId demoAmbient = None /\
  r = (fail 500 "Server error", demoStore) /\
  status (fst r) <> 400 /\ status (fst r) <> 201.
Proof.
  cbv zeta. split; [reflexivity |]. split; [vm_compute; reflexivity |].
  split.
  { apply findOne_email_None. vm_compute. reflexivity. }
  split; [vm_compute; reflexivity |].
  split; [vm_compute; reflexivity |].
  split; vm_compute; discriminate.
Qed.

(** ** Location *)

(** What the location route does, case by case: it answers 400 when the
    latitude or the longitude is [undefined] or a falsy number, and
    otherwise stores the coordinates, the address (or the two numbers
    joined by a comma and a space when it is missing or empty) and the
    time. *)
Lemma setLocation_cases (P : Platform) (A : Ambient) (st : Store)
    (U : User.doc) (u : User.doc) (lat lon : option float)
    (addr : option jsstring) :
  User.findById (users st) (User._id U) = Some u ->
  let r := setLocation P A st U lat lon addr in
  (missingNumber lat || missingNumber lon = true /\
   r = (fail 400 "Latitude and longitude are required", st))
  \/
  (exists x y,
     lat = Some x /\ lon = Some y /\
     numberTruthy x = true /\ numberTruthy y = true /\
     let loc := {|
       Location.latitude := x; Location.longitude := y;
       Location.address :=
         if missing addr then numberToString P x ++ lit ", "
                              ++ numberToString P y
         else match addr with Some a => a | None => [] end;
       Location.lastUpdated := clock A 0 |} in
     r = (ok (PLocationSaved (Some loc)),
          withUsers st
            (<[User._id U := User.setLocation (Some loc) u]> (users st)))).
Proof.
  intros Hu r. subst r. unfold setLocation, catch, User.findByIdAndUpdate.
  destruct lat as [x|]; [| left; split; reflexivity].
  destruct lon as [y|];
    [| left; split; [apply orb_true_r | reflexivity]].
  cbn [missingNumber].
  destruct (numberTruthy x) eqn:Hx; [| left; split; reflexivity].
  destruct (numberTruthy y) eqn:Hy; [| left; split; reflexivity].
  cbn [negb orb]. rewrite Hu. right. exists x, y.
  split_and!; try reflexivity; try assumption.
  unfold latLonString, missing.
  destruct addr as [[|c a]|]; reflexivity.
Qed.

(** C7, on the code.  A request whose latitude is the number 0 is
    answered 400 "Latitude and longitude are required" and nothing is
    stored, although both coordinates are in the request; so is Alice's
    request for latitude 0, longitude 10. *)
Theorem setLocation_rejects_zero_latitude :
  (forall (P : Platform) (A : Ambient) (st : Store) (U : User.doc)
          (lon : option float) (addr : option jsstring),
     setLocation P A st U (Some 0%float) lon addr
     = (fail 400 "Latitude and longitude are required", st)) /\
  serve demoPlatform demoAmbient demoStore
        {| authorization := aliceAuth;
           route := PostLocation (Some 0%float) (Some 10%float) None |}
  = (fail 400 "Latitude and longitude are required", demoStore).
Proof.
  split.
  - intros P A st U lon addr. unfold setLocation, catch.
    destruct lon; reflexivity.
  - vm_compute. reflexivity.
Qed.

(** The same request with latitude 1 is accepted and stored. *)
Example setLocation_accepts_nonzero :
  let r := serve demoPlatform demoAmbient demoStore
             {| authorization := aliceAuth;
                route := PostLocation (Some 1%float) (Some 10%float) None |}
  in
  status (fst r) = 200 /\
  (User.location <$> users (snd r) !! 1%N)
  = Some (Some {| Location.latitude := 1%float;
                  Location.longitude := 10%float;
                  Location.address :=
                    latLonString demoPlatform 1%float 10%float;
                  Location.lastUpdated := 1001 |}).
Proof. vm_compute. split; reflexivity. Qed.

(** * Further properties of the routes *)

(** ** Statuses, error bodies and failed requests *)

Lemma authMiddleware_refusal (P : Platform) (A : Ambient) (st : Store)
    (h : option jsstring) (r : Response) :
  authMiddleware P A st h = inl r ->
  r = fail 401 "Access denied" \/ r = fail 401 "Token is not valid".
Proof.
  unfold authMiddleware. intros H. handler_cases; auto.
Qed.

Ltac shape :=
  cbn;
  repeat match goal with
         | |- _ /\ _ => split
         | |- _ <-> _ => split
         end;
  intros; try reflexivity; try discriminate; try lia; auto 10.

(** Every response has one of six statuses; its body is the [{ error }]
    object exactly when the status is 400 or more; and a request answered
    with such a status has written nothing. *)
Theorem failed_requests_write_nothing (P : Platform) (A : Ambient)
    (st : Store) (req : Request) :
  let r := serve P A st req in
  In (status (fst r)) [200; 201; 400; 401; 404; 500] /\
  (isError (payload (fst r)) = true <-> 400 <= status (fst r)) /\
  (400 <= status (fst r) -> snd r = st).
Proof.
  destruct req as [h rt]. unfold serve, protected.
  cbn [route authorization].
  destruct rt;
    try (destruct (authMiddleware P A st h) as [resp | U] eqn:Hauth;
         [destruct (authMiddleware_refusal _ _ _ _ _ Hauth) as [-> | ->];
          solve [shape] |]).
  - unfold register, catch. handler_cases; shape.
  - unfold login, catch. handler_cases; shape.
  - shape.
  - unfold createChat, catch. handler_cases; shape.
  - unfold getChat. handler_cases; shape.
  - unfold postMessage. handler_cases; shape.
  - unfold updateTitle. handler_cases; shape.
  - unfold deleteChat. handler_cases; shape.
  - unfold getProfile, catch. handler_cases; shape.
  - unfold updateProfile. handler_cases; shape.
  - unfold setLocation, catch. handler_cases; shape.
  - unfold getLocation, catch. handler_cases; shape.
  - unfold deleteLocation. handler_cases; shape.
  - shape.
Qed.

(** ** The gate *)

Lemma replace_unfold (s p r : jsstring) :
  JS.replace s p r =
  if JS.startsWith s p then r ++ skipn (List.length p) s
  else match s with
       | [] => []
       | c :: s' => c :: JS.replace s' p r
       end.
Proof. destruct s; reflexivity. Qed.

Lemma includes_unfold (s p : jsstring) :
  JS.includes s p =
  JS.startsWith s p
  || match s with
     | [] => false
     | _ :: s' => JS.includes s' p
     end.
Proof. destruct s; reflexivity. Qed.

Lemma replace_absent (s p r : jsstring) :
  JS.includes s p = false -> JS.replace s p r = s.
Proof.
  induction s as [|c s IH]; rewrite includes_unfold, replace_unfold;
    intros [H1 H2]%orb_false_iff; rewrite H1; [reflexivity |].
  now rewrite IH.
Qed.

Lemma replace_prefix (s p r : jsstring) :
  JS.replace (p ++ s) p r = r ++ s.
Proof.
  rewrite replace_unfold.
  replace (JS.startsWith (p ++ s) p) with true
    by (symmetry; apply startsWith_spec; eauto).
  now rewrite skipn_app, skipn_all, Nat.sub_diag.
Qed.

(** The gate does not insist on the [Bearer] scheme: a header that is the
    bare token (with no "Bearer " inside) is treated as the same token
    sent with the prefix. *)
Theorem gate_accepts_bare_token (P : Platform) (A : Ambient) (st : Store)
    (token : jsstring) :
  JS.includes token (lit "Bearer ") = false ->
  authMiddleware P A st (Some token)
  = authMiddleware P A st (Some (lit "Bearer " ++ token)).
Proof.
  intros H. unfold authMiddleware. cbn [option_map].
  now rewrite replace_prefix, (replace_absent _ _ _ H).
Qed.

Lemma gate_accepts_bare_token_witness :
  authMiddleware demoPlatform demoAmbient demoStore (Some [2])
  = authMiddleware demoPlatform demoAmbient demoStore
      (Some (lit "Bearer " ++ [2])).
Proof.
  apply (gate_accepts_bare_token demoPlatform demoAmbient demoStore [2]).
  vm_compute. reflexivity.
Defined.

Lemma gate_token (P : Platform) (A : Ambient) (st : Store)
    (token : jsstring) :
  token <> [] ->
  authMiddleware P A st (Some (lit "Bearer " ++ token)) =
  match jwt_verify P token (secret A) (clock A 0) with
  | Some uid =>
    match User.findById (users st) uid with
    | Some u => inr (User.selectMinusPassword u)
    | None => inl (fail 401 "Token is not valid")
    end
  | None => inl (fail 401 "Token is not valid")
  end.
Proof.
  intros H. unfold authMiddleware. cbn [option_map].
  rewrite replace_prefix. cbn [app].
  destruct token; [contradiction | reflexivity].
Qed.

(** The routes behind the gate answer 401 and write nothing when the
    header is absent, when the token does not verify, and when it verifies
    for a user that is not in the store; the register, login and health
    routes do not look at the header. *)
Theorem gate_guards_routes (P : Platform) (A : Ambient) (st : Store)
    (rt : Route) (h : option jsstring) :
  if isPublic rt then
    serve P A st {| authorization := h; route := rt |}
    = serve P A st {| authorization := None; route := rt |}
  else
    serve P A st {| authorization := None; route := rt |}
    = (fail 401 "Access denied", st) /\
    serve P A st {| authorization := Some (lit "Bearer "); route := rt |}
    = (fail 401 "Access denied", st) /\
    (forall token : jsstring,
       token <> [] ->
       jwt_verify P token (secret A) (clock A 0) = None ->
       serve P A st {| authorization := Some (lit "Bearer " ++ token);
                       route := rt |}
       = (fail 401 "Token is not valid", st)) /\
    (forall (token : jsstring) (uid : ObjectId),
       token <> [] ->
       jwt_verify P token (secret A) (clock A 0) = Some uid ->
       users st !! uid = None ->
       serve P A st {| authorization := Some (lit "Bearer " ++ token);
                       route := rt |}
       = (fail 401 "Token is not valid", st)).
Proof.
  destruct rt; cbn [isPublic]; try reflexivity;
    unfold serve, protected; cbn [route authorization];
    (split; [reflexivity |]); (split; [reflexivity |]);
    (split;
     [ intros token Htok Hver; rewrite (gate_token P A st token Htok), Hver;
       reflexivity
     | intros token uid Htok Hver Hnone;
       rewrite (gate_token P A st token Htok), Hver;
       unfold User.findById; rewrite Hnone; reflexivity ]).
Qed.

(** ** Registration, login and the token together *)

Lemma findOne_email_insert (us : gmap ObjectId User.doc) (id : ObjectId)
    (u : User.doc) :
  User.findOne us (User.email u) = None ->
  User.findOne (<[id := u]> us) (User.email u) = Some u.
Proof.
  intros Hnone.
  destruct (User.findOne (<[id := u]> us) (User.email u)) as [u'|] eqn:H.
  - apply findOne_email_Some in H as (id' & Hu' & He).
    rewrite lookup_insert in Hu'. case_decide.
    + congruence.
    + destruct (proj1 (findOne_email_None _ _) Hnone id' u' Hu' He).
  - destruct (proj1 (findOne_email_None _ _) H id u);
      [apply lookup_insert_eq | reflexivity].
Qed.

(** After a successful registration, a login with the same email and
    password is answered 200 with a token for the new user and the same
    public fields, and writes nothing.  (bcrypt's [compare] accepts a
    password against its own hash.) *)
Theorem login_after_register (P : Platform) (A A' : Ambient) (st : Store)
    (name email password : option jsstring) :
  (forall p e,
     bcrypt_compare P p (bcrypt_hash P p (bcrypt_genSalt P 10 e)) = true) ->
  status (fst (register P A st name email password)) = 201 ->
  let st' := snd (register P A st name email password) in
  exists (u : User.doc),
    users st' !! freshId A = Some u /\
    Some (User.name u) = name /\ Some (User.email u) = email /\
    login P A' st' email password
    = (ok (PAuth (jwt_sign P (freshId A) (secret A') (lit "7d")
                           (clock A' 0)) u), st').
Proof.
  intros Hcmp H201 st'. subst st'.
  destruct (register_created P A st name email password H201)
    as (n & e & p & -> & -> & -> & _ & Hnone & Heq).
  cbv zeta in Heq. rewrite Heq. cbn [snd users withUsers].
  eexists. split; [apply lookup_insert_eq |].
  cbn [User.name User.email]. split; [reflexivity |].
  split; [reflexivity |].
  unfold login, catch. cbn [users withUsers].
  assert (Hn : negb (JS.truthy e) || negb (JS.truthy p) = false).
  { unfold register, catch in Heq.
    destruct (JS.truthy n), (JS.truthy e), (JS.truthy p);
      cbn in Heq; try discriminate; reflexivity. }
  rewrite Hn.
  match goal with
  | |- context [User.findOne (<[?i := ?u]> _) _] =>
      pose proof (findOne_email_insert (users st) i u Hnone) as Hfind
  end.
  cbn [User.email] in Hfind. rewrite Hfind.
  cbn [User.password User._id]. now rewrite Hcmp.
Qed.

Lemma login_after_register_witness :
  let name := Some (lit "Carol") in
  let email := Some (lit "carol@example.com") in
  let password := Some (lit "secret1") in
  let st' := snd (register demoPlatform demoAmbient demoStore
                           name email password) in
  exists (u : User.doc),
    users st' !! freshId demoAmbient = Some u /\
    Some (User.name u) = name /\ Some (User.email u) = email /\
    login demoPlatform demoAmbient st' email password
    = (ok (PAuth (jwt_sign demoPlatform (freshId demoAmbient)
                           (secret demoAmbient) (lit "7d")
                           (clock demoAmbient 0)) u), st').
Proof.
  apply (login_after_register demoPlatform demoAmbient demoAmbient
           demoStore (Some (lit "Carol")) (Some (lit "carol@example.com"))
           (Some (lit "secret1"))).
  - intros p e. apply bool_decide_eq_true_2. reflexivity.
  - vm_compute. reflexivity.
Defined.

(** The token of a successful registration opens the gate for the new
    user: sent as [Bearer <token>] while it verifies, it puts the new
    user's document, without the password, in [req.user]. *)
Theorem registered_token_opens_gate (P : Platform) (A A' : Ambient)
    (st : Store) (name email password : option jsstring) :
  status (fst (register P A st name email password)) = 201 ->
  let r := register P A st name email password in
  let token := jwt_sign P (freshId A) (secret A) (lit "7d") (clock A 1) in
  token <> [] ->
  jwt_verify P token (secret A') (clock A' 0) = Some (freshId A) ->
  exists (u : User.doc),
    payload (fst r) = PAuth token u /\
    users (snd r) !! freshId A = Some u /\
    User._id u = freshId A /\
    authMiddleware P A' (snd r) (Some (lit "Bearer " ++ token))
    = inr (User.selectMinusPassword u).
Proof.
  intros H201 r token Htok Hver. subst r.
  destruct (register_created P A st name email password H201)
    as (n & e & p & -> & -> & -> & _ & _ & Heq).
  cbv zeta in Heq. rewrite Heq. cbn [fst snd payload created].
  eexists. split; [reflexivity |].
  cbn [users withUsers]. split; [apply lookup_insert_eq |].
  split; [reflexivity |].
  rewrite (gate_token P A' _ token Htok), Hver.
  unfold User.findById. cbn [users withUsers].
  rewrite lookup_insert_eq. cbn [User._id].
  now rewrite bool_decide_eq_true_2.
Qed.

Lemma registered_token_opens_gate_witness :
  let r := register demoPlatform demoAmbient demoStore
             (Some (lit "Carol")) (Some (lit "carol@example.com"))
             (Some (lit "secret1")) in
  let token := jwt_sign demoPlatform (freshId demoAmbient)
                        (secret demoAmbient) (lit "7d")
                        (clock demoAmbient 1) in
  exists (u : User.doc),
    payload (fst r) = PAuth token u /\
    users (snd r) !! freshId demoAmbient = Some u /\
    User._id u = freshId demoAmbient /\
    authMiddleware demoPlatform demoAmbient (snd r)
                   (Some (lit "Bearer " ++ token))
    = inr (User.selectMinusPassword u).
Proof.
  apply (registered_token_opens_gate demoPlatform demoAmbient demoAmbient
           demoStore (Some (lit "Carol")) (Some (lit "carol@example.com"))
           (Some (lit "secret1"))).
  - vm_compute. reflexivity.
  - vm_compute. discriminate.
  - vm_compute. reflexivity.
Defined.

(** A login never writes, and it does not tell an unknown email from a
    wrong password: with both fields present, either way the answer is
    the same 400 "Invalid credentials". *)
Theorem login_failures_look_alike (P : Platform) (A : Ambient) (st : Store)
    (email password : jsstring) :
  email <> [] -> password <> [] ->
  (User.findOne (users st) email = None \/
   exists u hash,
     User.findOne (users st) email = Some u /\
     User.password u = Some hash /\
     bcrypt_compare P password hash = false) ->
  login P A st (Some email) (Some password)
  = (fail 400 "Invalid credentials", st).
Proof.
  intros He Hp H. unfold login, catch.
  destruct email; [contradiction |]. destruct password; [contradiction |].
  cbn [JS.truthy negb orb].
  destruct H as [-> | (u & hash & -> & -> & ->)]; reflexivity.
Qed.

Lemma login_failures_look_alike_witness :
  login demoPlatform demoAmbient demoStore
        (Some (lit "nobody@example.com")) (Some (lit "wonderland"))
  = (fail 400 "Invalid credentials", demoStore) /\
  login demoPlatform demoAmbient demoStore
        (Some (lit "alice@example.com")) (Some (lit "wrong"))
  = (fail 400 "Invalid credentials", demoStore).
Proof.
  split.
  - apply (login_failures_look_alike demoPlatform demoAmbient demoStore
             (lit "nobody@example.com") (lit "wonderland")).
    + vm_compute. discriminate.
    + vm_compute. discriminate.
    + left. vm_compute. reflexivity.
  - apply (login_failures_look_alike demoPlatform demoAmbient demoStore
             (lit "alice@example.com") (lit "wrong")).
    + vm_compute. discriminate.
    + vm_compute. discriminate.
    + right. exists alice. eexists.
      split; [vm_compute; reflexivity |].
      split; [reflexivity | vm_compute; reflexivity].
Defined.

(** ** The list of chats *)

Lemma insertByUpdatedAt_perm (c : Chat.doc) (l : list Chat.doc) :
  Permutation (Chat.insertByUpdatedAt c l) (c :: l).
Proof.
  induction l as [|d l IH]; cbn; [reflexivity |].
  destruct (Chat.updatedAt d <? Chat.updatedAt c); [reflexivity |].
  rewrite IH. apply perm_swap.
Qed.

Lemma sortByUpdatedAtDesc_perm (l : list Chat.doc) :
  Permutation (Chat.sortByUpdatedAtDesc l) l.
Proof.
  induction l as [|c l IH]; cbn; [reflexivity |].
  rewrite insertByUpdatedAt_perm. now rewrite IH.
Qed.

Lemma insertByUpdatedAt_sorted (c : Chat.doc) (l : list Chat.doc) :
  StronglySorted (fun a b => Chat.updatedAt b <= Chat.updatedAt a) l ->
  StronglySorted (fun a b => Chat.updatedAt b <= Chat.updatedAt a)
                 (Chat.insertByUpdatedAt c l).
Proof.
  induction 1 as [|d l Hl IH Hd]; cbn.
  - constructor; constructor.
  - destruct (Chat.updatedAt d <? Chat.updatedAt c) eqn:Hlt.
    + apply Z.ltb_lt in Hlt. constructor.
      * now constructor.
      * constructor; [lia |].
        eapply Forall_impl; [exact Hd |]. cbn. intros x Hx. lia.
    + apply Z.ltb_ge in Hlt. constructor; [exact IH |].
      eapply Permutation_Forall;
        [symmetry; apply insertByUpdatedAt_perm |].
      now constructor.
Qed.

Lemma sortByUpdatedAtDesc_sorted (l : list Chat.doc) :
  StronglySorted (fun a b => Chat.updatedAt b <= Chat.updatedAt a)
                 (Chat.sortByUpdatedAtDesc l).
Proof.
  induction l as [|c l IH]; cbn; [constructor |].
  now apply insertByUpdatedAt_sorted.
Qed.

Lemma find_In (cs : gmap ObjectId Chat.doc) (uid : ObjectId)
    (c : Chat.doc) :
  In c (Chat.find cs uid) <->
  exists k, cs !! k = Some c /\ Chat.userId c = uid.
Proof.
  unfold Chat.find. split.
  - intros H. pose proof (find_owner cs uid c H) as Hown.
    apply (Permutation_in _ (sortByUpdatedAtDesc_perm _)) in H.
    apply filter_In in H as [H _]. apply in_map_iff in H as ([k c'] & <- & H).
    apply list_elem_of_In, elem_of_map_to_list in H. eauto.
  - intros (k & Hk & Hown).
    apply (Permutation_in _ (Permutation_sym (sortByUpdatedAtDesc_perm _))).
    apply filter_In. split; [| now apply bool_decide_eq_true].
    apply in_map_iff. exists (k, c). split; [reflexivity |].
    now apply list_elem_of_In, elem_of_map_to_list.
Qed.

(** The list route answers 200 with exactly the caller's chats, each
    once, the most recently updated first, and writes nothing. *)
Theorem listChats_own_sorted (st : Store) (U : User.doc) :
  let l := Chat.find (chats st) (User._id U) in
  listChats st U = (ok (PChats l), st) /\
  (forall c, In c l <->
             exists k, chats st !! k = Some c /\
                       Chat.userId c = User._id U) /\
  StronglySorted (fun a b => Chat.updatedAt b <= Chat.updatedAt a) l /\
  Permutation l
    (List.filter (fun c => bool_decide (Chat.userId c = User._id U))
                 (map snd (map_to_list (chats st)))).
Proof.
  cbv zeta. split; [reflexivity |]. split; [apply find_In |].
  split; [apply sortByUpdatedAtDesc_sorted | apply sortByUpdatedAtDesc_perm].
Qed.

(** ** The life of a chat *)

Lemma findOne_insert_same (cs : gmap ObjectId Chat.doc) (id uid : ObjectId)
    (c : Chat.doc) :
  Chat._id c = id -> Chat.userId c = uid ->
  Chat.findOne (<[id := c]> cs) id uid = Some c.
Proof.
  intros Hid Huid. apply findOne_Some. now rewrite lookup_insert_eq.
Qed.

(** Creating a chat, when the new [_id] is not in use, answers 201 with an
    empty chat of the caller's titled "New Chat"; the chat is then what the
    get route returns to the caller, it is in the caller's list, and no
    other chat has changed. *)
Theorem createChat_then_get (A : Ambient) (st : Store) (U : User.doc) :
  chats st !! freshId A = None ->
  let r := createChat A st U in
  exists (c : Chat.doc),
    fst r = created (PChat c) /\
    Chat._id c = freshId A /\ Chat.userId c = User._id U /\
    Chat.title c = lit "New Chat" /\ Chat.messages c = [] /\
    users (snd r) = users st /\
    (forall k, k <> freshId A -> chats (snd r) !! k = chats st !! k) /\
    getChat (snd r) U (freshId A) = (ok (PChat c), snd r) /\
    In c (Chat.find (chats (snd r)) (User._id U)).
Proof.
  intros Hfresh r. subst r. unfold createChat, catch, Chat.insert.
  cbn [Chat._id]. rewrite Hfresh. cbn [fst snd chats users withChats].
  eexists. split; [reflexivity |]. cbn [Chat._id Chat.userId Chat.title
                                        Chat.messages].
  split_and!; try reflexivity.
  - intros k Hk. now rewrite lookup_insert_ne.
  - unfold getChat. cbn [chats withChats].
    now rewrite findOne_insert_same.
  - apply find_In. exists (freshId A).
    split; [apply lookup_insert_eq | reflexivity].
Qed.

Lemma createChat_then_get_witness :
  let r := createChat demoAmbient demoStore alice in
  exists (c : Chat.doc),
    fst r = created (PChat c) /\
    Chat._id c = freshId demoAmbient /\ Chat.userId c = User._id alice /\
    Chat.title c = lit "New Chat" /\ Chat.messages c = [] /\
    users (snd r) = users demoStore /\
    (forall k, k <> freshId demoAmbient ->
               chats (snd r) !! k = chats demoStore !! k) /\
    getChat (snd r) alice (freshId demoAmbient) = (ok (PChat c), snd r) /\
    In c (Chat.find (chats (snd r)) (User._id alice)).
Proof.
  apply (createChat_then_get demoAmbient demoStore alice).
  vm_compute. reflexivity.
Defined.

(** Deleting a chat of the caller's answers 200 and removes that chat and
    no other: afterwards the get, title, message and delete routes answer
    404 for its id, and it is no longer in the caller's list. *)
Theorem deleteChat_removes (P : Platform) (A : Ambient) (st : Store)
    (U : User.doc) (chatId : ObjectId) (c : Chat.doc) :
  Chat.findOne (chats st) chatId (User._id U) = Some c ->
  let r := deleteChat st U chatId in
  fst r = ok (PMessage (lit "Chat deleted successfully")) /\
  users (snd r) = users st /\
  chats (snd r) !! chatId = None /\
  (forall k, k <> chatId -> chats (snd r) !! k = chats st !! k) /\
  getChat (snd r) U chatId = (fail 404 "Chat not found", snd r) /\
  deleteChat (snd r) U chatId = (fail 404 "Chat not found", snd r) /\
  (forall t, JS.trim t <> [] ->
     updateTitle A (snd r) U chatId (Some t)
     = (fail 404 "Chat not found", snd r)) /\
  (forall m, JS.trim m <> [] ->
     postMessage P A (snd r) U chatId (Some m)
     = (fail 404 "Chat not found", snd r)) /\
  (forall c', In c' (Chat.find (chats (snd r)) (User._id U)) ->
              exists k, k <> chatId /\ chats st !! k = Some c').
Proof.
  intros Hc r. subst r.
  assert (Hr : deleteChat st U chatId
               = (ok (PMessage (lit "Chat deleted successfully")),
                  withChats st (delete chatId (chats st)))).
  { unfold deleteChat, Chat.findOneAndDelete. now rewrite Hc. }
  rewrite Hr. cbn [fst snd chats users withChats].
  assert (Hgone : Chat.findOne (delete chatId (chats st)) chatId
                               (User._id U) = None).
  { unfold Chat.findOne. now rewrite lookup_delete_eq. }
  split_and!; try reflexivity.
  - apply lookup_delete_eq.
  - intros k Hk. now rewrite lookup_delete_ne.
  - unfold getChat. cbn [chats withChats]. now rewrite Hgone.
  - unfold deleteChat, Chat.findOneAndDelete. cbn [chats withChats].
    now rewrite Hgone.
  - intros t Ht. unfold updateTitle, Chat.findOneAndUpdate.
    cbn [chats withChats]. now rewrite (trim_accepts t Ht), Hgone.
  - intros m Hm. unfold postMessage. cbn [chats withChats].
    now rewrite (trim_accepts m Hm), Hgone.
  - intros c' (k & Hk & _)%find_In. cbn [chats withChats] in Hk.
    rewrite lookup_delete in Hk. case_decide; [discriminate |]. eauto.
Qed.

Lemma deleteChat_removes_witness :
  let r := deleteChat demoStore bob 5%N in
  fst r = ok (PMessage (lit "Chat deleted successfully")) /\
  users (snd r) = users demoStore /\
  chats (snd r) !! 5%N = None /\
  (forall k, k <> 5%N -> chats (snd r) !! k = chats demoStore !! k) /\
  getChat (snd r) bob 5%N = (fail 404 "Chat not found", snd r) /\
  deleteChat (snd r) bob 5%N = (fail 404 "Chat not found", snd r) /\
  (forall t, JS.trim t <> [] ->
     updateTitle demoAmbient (snd r) bob 5%N (Some t)
     = (fail 404 "Chat not found", snd r)) /\
  (forall m, JS.trim m <> [] ->
     postMessage demoPlatform demoAmbient (snd r) bob 5%N (Some m)
     = (fail 404 "Chat not found", snd r)) /\
  (forall c', In c' (Chat.find (chats (snd r)) (User._id bob)) ->
              exists k, k <> 5%N /\ chats demoStore !! k = Some c').
Proof.
  apply (deleteChat_removes demoPlatform demoAmbient demoStore bob 5%N
           bobsChat).
  vm_compute. reflexivity.
Defined.

(** Renaming a chat of the caller's answers 200 with the chat as stored:
    the title is the trimmed one, the update time is the time of the
    request, the messages, the owner and the creation time are as before,
    and no other chat has changed.  The get route then returns that
    chat. *)
Theorem updateTitle_renames (A : Ambient) (st : Store) (U : User.doc)
    (chatId : ObjectId) (t : jsstring) (c : Chat.doc) :
  JS.trim t <> [] ->
  Chat.findOne (chats st) chatId (User._id U) = Some c ->
  let r := updateTitle A st U chatId (Some t) in
  exists (c' : Chat.doc),
    fst r = ok (PTitle c') /\
    chats (snd r) !! chatId = Some c' /\
    Chat.title c' = JS.trim t /\ Chat.updatedAt c' = clock A 0 /\
    Chat.messages c' = Chat.messages c /\ Chat._id c' = Chat._id c /\
    Chat.userId c' = Chat.userId c /\ Chat.createdAt c' = Chat.createdAt c /\
    users (snd r) = users st /\
    (forall k, k <> chatId -> chats (snd r) !! k = chats st !! k) /\
    getChat (snd r) U chatId = (ok (PChat c'), snd r).
Proof.
  intros Ht Hc r. subst r.
  rewrite (updateTitle_accept A st U chatId t c Ht Hc).
  cbn [fst snd chats users withChats].
  exists (Chat.setTitle (JS.trim t) (clock A 0) c).
  split_and!; try reflexivity.
  - apply lookup_insert_eq.
  - intros k Hk. now rewrite lookup_insert_ne.
  - unfold getChat. cbn [chats withChats].
    apply findOne_Some in Hc as (_ & Hid & Huid).
    now rewrite findOne_insert_same.
Qed.

Lemma updateTitle_renames_witness :
  let r := updateTitle demoAmbient demoStore bob 5%N
                       (Some (lit "  Plans  ")) in
  exists (c' : Chat.doc),
    fst r = ok (PTitle c') /\
    chats (snd r) !! 5%N = Some c' /\
    Chat.title c' = JS.trim (lit "  Plans  ") /\
    Chat.updatedAt c' = clock demoAmbient 0 /\
    Chat.messages c' = Chat.messages bobsChat /\
    Chat._id c' = Chat._id bobsChat /\
    Chat.userId c' = Chat.userId bobsChat /\
    Chat.createdAt c' = Chat.createdAt bobsChat /\
    users (snd r) = users demoStore /\
    (forall k, k <> 5%N -> chats (snd r) !! k = chats demoStore !! k) /\
    getChat (snd r) bob 5%N = (ok (PChat c'), snd r).
Proof.
  apply (updateTitle_renames demoAmbient demoStore bob 5%N
           (lit "  Plans  ") bobsChat).
  - vm_compute. discriminate.
  - vm_compute. reflexivity.
Defined.

(** An accepted message to a chat of the caller's answers 200 with the
    two messages that were appended and the generator's recommendations:
    the user's message holds the trimmed text, the assistant's the
    generator's content for the untrimmed text; the stored chat ends with
    these two messages, keeps its owner and creation time, takes the time
    of the request as update time, and no other chat has changed. *)
Theorem postMessage_returns_what_it_stores (P : Platform) (A : Ambient)
    (st : Store) (U : User.doc) (chatId : ObjectId) (m : jsstring)
    (c : Chat.doc) :
  JS.trim m <> [] ->
  Chat.findOne (chats st) chatId (User._id U) = Some c ->
  let r := postMessage P A st U chatId (Some m) in
  let ai := generateAIResponse P m (Some (detectLanguage m)) in
  exists (um am : Chat.Message) (c' : Chat.doc),
    fst r = ok (PExchange um am (recommendations ai)) /\
    Chat.content um = JS.trim m /\ Chat.content am = content ai /\
    Chat.timestamp um = clock A 0 /\ Chat.timestamp am = clock A 1 /\
    chats (snd r) !! chatId = Some c' /\
    Chat.messages c' = Chat.messages c ++ [um; am] /\
    Chat._id c' = Chat._id c /\ Chat.userId c' = Chat.userId c /\
    Chat.createdAt c' = Chat.createdAt c /\
    Chat.updatedAt c' = clock A 2 /\
    users (snd r) = users st /\
    (forall k, k <> chatId -> chats (snd r) !! k = chats st !! k) /\
    getChat (snd r) U chatId = (ok (PChat c'), snd r).
Proof.
  intros Hm Hc r ai. subst r ai.
  rewrite (postMessage_accept P A st U chatId m c Hm Hc).
  cbn [fst snd chats users withChats].
  apply findOne_Some in Hc as (_ & Hid & Huid).
  do 3 eexists. split; [reflexivity |].
  cbn [Chat.content Chat.timestamp].
  do 4 (split; [reflexivity |]).
  split; [apply lookup_insert_eq |].
  cbn [Chat.messages Chat._id Chat.userId Chat.createdAt Chat.updatedAt].
  split_and!; try reflexivity; try (symmetry; assumption).
  - intros k Hk. now rewrite lookup_insert_ne.
  - unfold getChat. cbn [chats withChats].
    now rewrite findOne_insert_same.
Qed.

Lemma postMessage_returns_what_it_stores_witness :
  let m := lit " any deals today? " in
  let r := postMessage demoPlatform demoAmbient demoStore bob 5%N
                       (Some m) in
  let ai := generateAIResponse demoPlatform m (Some (detectLanguage m)) in
  exists (um am : Chat.Message) (c' : Chat.doc),
    fst r = ok (PExchange um am (recommendations ai)) /\
    Chat.content um = JS.trim m /\ Chat.content am = content ai /\
    Chat.timestamp um = clock demoAmbient 0 /\
    Chat.timestamp am = clock demoAmbient 1 /\
    chats (snd r) !! 5%N = Some c' /\
    Chat.messages c' = Chat.messages bobsChat ++ [um; am] /\
    Chat._id c' = Chat._id bobsChat /\
    Chat.userId c' = Chat.userId bobsChat /\
    Chat.createdAt c' = Chat.createdAt bobsChat /\
    Chat.updatedAt c' = clock demoAmbient 2 /\
    users (snd r) = users demoStore /\
    (forall k, k <> 5%N -> chats (snd r) !! k = chats demoStore !! k) /\
    getChat (snd r) bob 5%N = (ok (PChat c'), snd r).
Proof.
  apply (postMessage_returns_what_it_stores demoPlatform demoAmbient
           demoStore bob 5%N (lit " any deals today? ") bobsChat).
  - vm_compute. discriminate.
  - vm_compute. reflexivity.
Defined.

(** ** Profile and location *)

Lemma findById_Some (us : gmap ObjectId User.doc) (id : ObjectId)
    (u : User.doc) :
  User.findById us id = Some u <-> us !! id = Some u /\ User._id u = id.
Proof.
  unfold User.findById. destruct (us !! id) as [v|]; [| intuition congruence].
  case_bool_decide as H.
  - split; [intros [= ->]; tauto | intros [[= ->] _]; reflexivity].
  - split; [discriminate | intros [[= ->] ?]; tauto].
Qed.

Lemma findById_insert_same (us : gmap ObjectId User.doc) (id : ObjectId)
    (u : User.doc) :
  User._id u = id -> User.findById (<[id := u]> us) id = Some u.
Proof. intros H. apply findById_Some. now rewrite lookup_insert_eq. Qed.

(** Updating the profile of a stored user answers 200 with the updated
    document, without its password.  The name and the preferred language
    that the body gives are stored; the email, the password, the location
    and the creation time stay, and so do the other users and all chats.
    The profile route then shows the stored document. *)
Theorem updateProfile_changes_name_and_language_only (st : Store)
    (U u : User.doc) (name preferredLanguage : option jsstring) :
  User.findById (users st) (User._id U) = Some u ->
  let r := updateProfile st U name preferredLanguage in
  exists (u' : User.doc),
    users (snd r) !! User._id U = Some u' /\
    fst r = ok (PUser (Some (User.selectMinusPassword u'))) /\
    (forall n, name = Some n -> User.name u' = n) /\
    (forall l, preferredLanguage = Some l ->
               User.preferredLanguage u' = l) /\
    User._id u' = User._id u /\ User.email u' = User.email u /\
    User.password u' = User.password u /\
    User.location u' = User.location u /\
    User.createdAt u' = User.createdAt u /\
    chats (snd r) = chats st /\
    (forall k, k <> User._id U -> users (snd r) !! k = users st !! k) /\
    getProfile (snd r) U
    = (ok (PProfile (User.selectMinusPassword u')), snd r).
Proof.
  intros Hu r. subst r. unfold updateProfile, User.findByIdAndUpdate.
  rewrite Hu. cbn [fst snd users chats withUsers option_map].
  apply findById_Some in Hu as (_ & Hid).
  eexists. split; [apply lookup_insert_eq |].
  split; [reflexivity |].
  cbn [User.setProfile User.name User.preferredLanguage User._id
       User.email User.password User.location User.createdAt].
  split_and!; try reflexivity.
  - now intros n' ->.
  - now intros l' ->.
  - intros k Hk. now rewrite lookup_insert_ne.
  - unfold getProfile, catch. cbn [users withUsers].
    now rewrite findById_insert_same.
Qed.

Lemma updateProfile_changes_name_and_language_only_witness :
  let r := updateProfile demoStore alice (Some (lit "Alicia")) None in
  exists (u' : User.doc),
    users (snd r) !! User._id alice = Some u' /\
    fst r = ok (PUser (Some (User.selectMinusPassword u'))) /\
    (forall n, Some (lit "Alicia") = Some n -> User.name u' = n) /\
    (forall l, None = Some l -> User.preferredLanguage u' = l) /\
    User._id u' = User._id alice /\ User.email u' = User.email alice /\
    User.password u' = User.password alice /\
    User.location u' = User.location alice /\
    User.createdAt u' = User.createdAt alice /\
    chats (snd r) = chats demoStore /\
    (forall k, k <> User._id alice ->
               users (snd r) !! k = users demoStore !! k) /\
    getProfile (snd r) alice
    = (ok (PProfile (User.selectMinusPassword u')), snd r).
Proof.
  apply (updateProfile_changes_name_and_language_only demoStore alice alice
           (Some (lit "Alicia")) None).
  vm_compute. reflexivity.
Defined.

(** Saving a location with two truthy coordinates for a stored user
    answers 200 with the location as stored: the coordinates, the time of
    the request and the address, which is the one given when it is a
    non-empty string and otherwise the two numbers joined by ", ".  The
    location route then returns it; after the delete route it answers 404.
    The rest of the user's document is kept throughout. *)
Theorem location_set_get_delete (P : Platform) (A : Ambient) (st : Store)
    (U u : User.doc) (x y : float) (addr : option jsstring) :
  User.findById (users st) (User._id U) = Some u ->
  numberTruthy x = true -> numberTruthy y = true ->
  let r1 := setLocation P A st U (Some x) (Some y) addr in
  let r2 := deleteLocation (snd r1) U in
  exists (loc : Location.t),
    fst r1 = ok (PLocationSaved (Some loc)) /\
    Location.latitude loc = x /\ Location.longitude loc = y /\
    Location.lastUpdated loc = clock A 0 /\
    Location.address loc
      = match addr with
        | Some (c :: a) => c :: a
        | _ => numberToString P x ++ lit ", " ++ numberToString P y
        end /\
    users (snd r1) !! User._id U = Some (User.setLocation (Some loc) u) /\
    chats (snd r1) = chats st /\
    getLocation (snd r1) U = (ok (PLocation loc), snd r1) /\
    fst r2 = ok (PMessage (lit "Location data deleted successfully")) /\
    users (snd r2) !! User._id U = Some (User.setLocation None u) /\
    getLocation (snd r2) U = (fail 404 "No location data found", snd r2).
Proof.
  intros Hu Hx Hy r1 r2. subst r2 r1.
  destruct (setLocation_cases P A st U u (Some x) (Some y) addr Hu)
    as [[Hbad _] | (x' & y' & [= <-] & [= <-] & _ & _ & Heq)].
  { cbn in Hbad. rewrite Hx, Hy in Hbad. discriminate. }
  cbv zeta in Heq. rewrite Heq. cbn [fst snd users chats withUsers].
  apply findById_Some in Hu as (_ & Hid).
  eexists. split; [reflexivity |].
  cbn [Location.latitude Location.longitude Location.lastUpdated
       Location.address].
  do 3 (split; [reflexivity |]).
  split; [destruct addr as [[|c a]|]; reflexivity |].
  split; [apply lookup_insert_eq |]. split; [reflexivity |].
  split.
  { unfold getLocation, catch. cbn [users withUsers].
    rewrite findById_insert_same by exact Hid.
    cbn [User.location User.setLocation Location.latitude]. now rewrite Hx. }
  unfold deleteLocation, User.findByIdAndUpdate. cbn [users withUsers].
  rewrite findById_insert_same by exact Hid.
  cbn [fst snd users withUsers]. split; [reflexivity |].
  rewrite insert_insert_eq. split; [apply lookup_insert_eq |].
  unfold getLocation, catch. cbn [users withUsers].
  now rewrite findById_insert_same by exact Hid.
Qed.

Lemma location_set_get_delete_witness :
  let r1 := setLocation demoPlatform demoAmbient demoStore alice
                        (Some 1%float) (Some 10%float) None in
  let r2 := deleteLocation (snd r1) alice in
  exists (loc : Location.t),
    fst r1 = ok (PLocationSaved (Some loc)) /\
    Location.latitude loc = 1%float /\ Location.longitude loc = 10%float /\
    Location.lastUpdated loc = clock demoAmbient 0 /\
    Location.address loc
      = numberToString demoPlatform 1%float ++ lit ", "
        ++ numberToString demoPlatform 10%float /\
    users (snd r1) !! User._id alice
      = Some (User.setLocation (Some loc) alice) /\
    chats (snd r1) = chats demoStore /\
    getLocation (snd r1) alice = (ok (PLocation loc), snd r1) /\
    fst r2 = ok (PMessage (lit "Location data deleted successfully")) /\
    users (snd r2) !! User._id alice = Some (User.setLocation None alice) /\
    getLocation (snd r2) alice
    = (fail 404 "No location data found", snd r2).
Proof.
  apply (location_set_get_delete demoPlatform demoAmbient demoStore alice
           alice 1%float 10%float None).
  - vm_compute. reflexivity.
  - reflexivity.
  - reflexivity.
Defined.

(** ** What one request can do to the store *)

Lemma withUsers_same (st : Store) : withUsers st (users st) = st.
Proof. destruct st; reflexivity. Qed.

Lemma withChats_same (st : Store) : withChats st (chats st) = st.
Proof. destruct st; reflexivity. Qed.

Lemma content_nonempty (P : Platform) (m : jsstring) (l : option jsstring) :
  content (generateAIResponse P m l) <> [].
Proof.
  destruct (generateAIResponse_template P m l)
    as [<- | [<- | [<- | [<- | []]]]]; vm_compute; discriminate.
Qed.

Lemma derivedTitle_nonempty (m : jsstring) :
  m <> [] -> derivedTitle m <> [].
Proof.
  intros Hm. unfold derivedTitle. rewrite substring_prefix.
  destruct m; [contradiction | discriminate].
Qed.

Lemma trim_nonempty (m : jsstring) : JS.trim m <> [] -> m <> [].
Proof. intros H ->. now apply H. Qed.

Lemma register_effect (P : Platform) (A : Ambient) (st : Store)
    (n e p : option jsstring) :
  Effect P st (snd (register P A st n e p)).
Proof.
  unfold register, catch, User.save. cbn [User._id User.email].
  handler_cases; try apply Effect_none.
  match goal with
  | |- Effect _ _ (withUsers _ (<[_ := ?u]> _)) =>
      apply (Effect_newUser P st u)
  end; cbn [User._id User.email User.password]; try assumption.
  - eexists _, (entropy A). split; [| reflexivity].
    match goal with H : (_ <? 6) = false |- _ => apply Z.ltb_ge in H end.
    assumption.
  - match goal with
    | H : negb (isEmail P _) = false |- _ => now apply negb_false_iff in H
    end.
Qed.

Lemma login_effect (P : Platform) (A : Ambient) (st : Store)
    (e p : option jsstring) :
  snd (login P A st e p) = st.
Proof. unfold login, catch. handler_cases; reflexivity. Qed.

Lemma updateUser_effect (P : Platform) (st : Store) (id : ObjectId)
    (f : User.doc -> User.doc) :
  (forall u, sameIdentity u (f u)) ->
  Effect P st (withUsers st (snd (User.findByIdAndUpdate (users st) id f))).
Proof.
  intros Hf. unfold User.findByIdAndUpdate.
  destruct (User.findById (users st) id) as [u|] eqn:Hu; cbn [snd].
  - now apply Effect_updateUser with u.
  - rewrite withUsers_same. apply Effect_none.
Qed.

Lemma setProfile_identity (n l : option jsstring) (u : User.doc) :
  sameIdentity u (User.setProfile n l u).
Proof. repeat split. Qed.

Lemma setLocation_identity (loc : option Location.t) (u : User.doc) :
  sameIdentity u (User.setLocation loc u).
Proof. repeat split. Qed.

Lemma updateProfile_effect (P : Platform) (st : Store) (U : User.doc)
    (n l : option jsstring) :
  Effect P st (snd (updateProfile st U n l)).
Proof.
  pose proof (updateUser_effect P st (User._id U) (User.setProfile n l)
                (setProfile_identity n l)) as H.
  unfold updateProfile.
  destruct (User.findByIdAndUpdate _ _ _); exact H.
Qed.

Lemma deleteLocation_effect (P : Platform) (st : Store) (U : User.doc) :
  Effect P st (snd (deleteLocation st U)).
Proof.
  pose proof (updateUser_effect P st (User._id U) (User.setLocation None)
                (setLocation_identity None)) as H.
  unfold deleteLocation.
  destruct (User.findByIdAndUpdate _ _ _); exact H.
Qed.

Lemma setLocation_effect (P : Platform) (A : Ambient) (st : Store)
    (U : User.doc) (lat lon : option float) (addr : option jsstring) :
  Effect P st (snd (setLocation P A st U lat lon addr)).
Proof.
  unfold setLocation, catch.
  destruct lat as [x|]; [| apply Effect_none].
  destruct lon as [y|]; [| apply Effect_none].
  destruct (negb (numberTruthy x) || negb (numberTruthy y));
    [apply Effect_none |].
  match goal with
  | |- context [User.findByIdAndUpdate ?us ?id ?f] =>
      pose proof (updateUser_effect P st id f
                    (setLocation_identity _)) as H;
      destruct (User.findByIdAndUpdate us id f) as [[u|] us']
  end; [exact H | apply Effect_none].
Qed.

Lemma getProfile_effect (st : Store) (U : User.doc) :
  snd (getProfile st U) = st.
Proof. unfold getProfile, catch. handler_cases; reflexivity. Qed.

Lemma getLocation_effect (st : Store) (U : User.doc) :
  snd (getLocation st U) = st.
Proof. unfold getLocation, catch. handler_cases; reflexivity. Qed.

Lemma createChat_effect (P : Platform) (A : Ambient) (st : Store)
    (U : User.doc) :
  is_Some (users st !! User._id U) ->
  Effect P st (snd (createChat A st U)).
Proof.
  intros HU. unfold createChat, catch, Chat.insert. cbn [Chat._id].
  destruct (chats st !! freshId A) eqn:Hfresh; [apply Effect_none |].
  cbn [snd].
  match goal with
  | |- Effect _ _ (withChats _ (<[_ := ?c]> _)) =>
      apply (Effect_newChat P st c)
  end; cbn; (assumption || discriminate || reflexivity).
Qed.

Lemma postMessage_effect (P : Platform) (A : Ambient) (st : Store)
    (U : User.doc) (chatId : ObjectId) (message : option jsstring) :
  Effect P st (snd (postMessage P A st U chatId message)).
Proof.
  destruct message as [m|]; [| apply Effect_none].
  destruct (decide (JS.trim m = [])) as [Hm | Hm].
  { unfold postMessage. rewrite (trim_rejects m Hm). apply Effect_none. }
  destruct (Chat.findOne (chats st) chatId (User._id U)) as [c|] eqn:Hc.
  - rewrite (postMessage_accept P A st U chatId m c Hm Hc). cbn [snd].
    apply findOne_Some in Hc as (Hc & Hid & _).
    apply Effect_updateChat with c; try assumption; try reflexivity.
    + cbn [Chat.title]. destruct (Chat.messages c); [right | now left].
      apply derivedTitle_nonempty. now apply trim_nonempty.
    + cbn [Chat.messages]. intros x [Hx | Hx]%in_app_or; [now left |].
      right. destruct Hx as [<- | [<- | []]]; cbn [Chat.content];
        [exact Hm | apply content_nonempty].
  - unfold postMessage. rewrite (trim_accepts m Hm), Hc. apply Effect_none.
Qed.

Lemma updateTitle_effect (P : Platform) (A : Ambient) (st : Store)
    (U : User.doc) (chatId : ObjectId) (title : option jsstring) :
  Effect P st (snd (updateTitle A st U chatId title)).
Proof.
  destruct title as [t|]; [| apply Effect_none].
  destruct (decide (JS.trim t = [])) as [Ht | Ht].
  { unfold updateTitle. rewrite (trim_rejects t Ht). apply Effect_none. }
  destruct (Chat.findOne (chats st) chatId (User._id U)) as [c|] eqn:Hc.
  - rewrite (updateTitle_accept A st U chatId t c Ht Hc). cbn [snd].
    apply findOne_Some in Hc as (Hc & Hid & _).
    apply Effect_updateChat with c; try assumption; try reflexivity.
    + now right.
    + intros x Hx. now left.
  - unfold updateTitle, Chat.findOneAndUpdate.
    rewrite (trim_accepts t Ht), Hc. apply Effect_none.
Qed.

Lemma deleteChat_effect (P : Platform) (st : Store) (U : User.doc)
    (chatId : ObjectId) :
  Effect P st (snd (deleteChat st U chatId)).
Proof.
  unfold deleteChat, Chat.findOneAndDelete.
  destruct (Chat.findOne (chats st) chatId (User._id U));
    [apply Effect_deleteChat | apply Effect_none].
Qed.

Lemma serve_effect (P : Platform) (A : Ambient) (st : Store)
    (req : Request) :
  Effect P st (snd (serve P A st req)).
Proof.
  destruct req as [h rt]. unfold serve, protected.
  cbn [route authorization].
  destruct rt;
    [ apply register_effect | rewrite login_effect; apply Effect_none | .. ];
    try (destruct (authMiddleware P A st h) as [resp | U] eqn:Hauth;
         [apply Effect_none |]).
  - apply Effect_none.
  - apply createChat_effect.
    destruct (authMiddleware_projects _ _ _ _ _ Hauth) as (_ & u & Hu & _).
    now exists u.
  - rewrite getChat_store. apply Effect_none.
  - apply postMessage_effect.
  - apply updateTitle_effect.
  - apply deleteChat_effect.
  - rewrite getProfile_effect. apply Effect_none.
  - apply updateProfile_effect.
  - apply setLocation_effect.
  - rewrite getLocation_effect. apply Effect_none.
  - apply deleteLocation_effect.
  - apply Effect_none.
Qed.

Lemma Effect_usersKept (P : Platform) (st st' : Store) :
  Effect P st st' -> usersKept (users st) (users st').
Proof.
  assert (Hrefl : forall us, usersKept us us).
  { intros us id u Hu. exists u. split; [exact Hu | repeat split]. }
  destruct 1 as [| u Hfresh _ _ _ | id u u' Hu Hsame | | |];
    cbn [users withUsers withChats]; try apply Hrefl.
  - intros id v Hv. exists v. split; [| repeat split].
    rewrite lookup_insert_ne; [exact Hv | congruence].
  - apply findById_Some in Hu as (Hu & _).
    intros id' v Hv. destruct (decide (id = id')) as [<- | Hne].
    + exists u'. rewrite lookup_insert_eq. split; [reflexivity |].
      congruence.
    + exists v. rewrite lookup_insert_ne by exact Hne.
      split; [exact Hv | repeat split].
Qed.

(** No request removes a user or changes a user's [_id], email, password
    field or creation time, whatever the route and whoever sends it. *)
Theorem users_keep_their_identity (P : Platform) (A : Ambient) (st : Store)
    (req : Request) :
  forall (id : ObjectId) (u : User.doc),
    users st !! id = Some u ->
    exists (u' : User.doc),
      users (snd (serve P A st req)) !! id = Some u' /\
      User._id u' = User._id u /\ User.email u' = User.email u /\
      User.password u' = User.password u /\
      User.createdAt u' = User.createdAt u.
Proof.
  intros id u Hu.
  destruct (Effect_usersKept P st _ (serve_effect P A st req) id u Hu)
    as (u' & Hu' & Hsame).
  exists u'. split; [exact Hu' | exact Hsame].
Qed.

Lemma users_keep_their_identity_witness :
  exists (u' : User.doc),
    users (snd (serve demoPlatform demoAmbient demoStore
                      {| authorization := aliceAuth;
                         route := PutProfile (Some (lit "Alicia")) None |}))
      !! 1%N = Some u' /\
    User._id u' = User._id alice /\ User.email u' = User.email alice /\
    User.password u' = User.password alice /\
    User.createdAt u' = User.createdAt alice.
Proof.
  apply (users_keep_their_identity demoPlatform demoAmbient demoStore
           {| authorization := aliceAuth;
              route := PutProfile (Some (lit "Alicia")) None |}
           1%N alice).
  vm_compute. reflexivity.
Defined.

Lemma Effect_wellFormed (P : Platform) (st st' : Store) :
  wellFormed P st -> Effect P st st' -> wellFormed P st'.
Proof.
  intros [Hukey Uhash Umail Uuniq Hckey Hown Htitle Hcont] Heff.
  destruct Heff as [| u Hfresh Hnone Hhash Hmail
                    | id u u' Hu (Hid & Hem & Hpw & _)
                    | c Hfresh Howner Ht Hms
                    | id c c' Hc Hcid Hid' Huid Ht Hms
                    | id ].
  - now constructor.
  - (* a new user *)
    pose proof (proj1 (findOne_email_None _ _) Hnone) as Hother.
    constructor; cbn [users chats withUsers]; try assumption.
    + intros k v. rewrite lookup_insert.
      case_decide; [intros [= <-]; congruence | apply Hukey].
    + intros k v. rewrite lookup_insert.
      case_decide; [intros [= <-]; exact Hhash | apply Uhash].
    + intros k v. rewrite lookup_insert.
      case_decide; [intros [= <-]; exact Hmail | apply Umail].
    + intros k1 k2 u1 u2. rewrite !lookup_insert.
      repeat case_decide; subst.
      * reflexivity.
      * intros [= <-] H2 He. destruct (Hother k2 u2 H2). now symmetry.
      * intros H1 [= <-] He. destruct (Hother k1 u1 H1 He).
      * apply Uuniq.
    + intros k c Hc. destruct (Hown k c Hc) as [v Hv].
      destruct (decide (User._id u = Chat.userId c)) as [Heq | Hne].
      * rewrite <- Heq, lookup_insert_eq. eauto.
      * rewrite lookup_insert_ne by exact Hne. eauto.
  - (* an updated user *)
    apply findById_Some in Hu as (Hu & Huid).
    constructor; cbn [users chats withUsers]; try assumption.
    + intros k v. rewrite lookup_insert.
      case_decide; [intros [= <-]; congruence | apply Hukey].
    + intros k v. rewrite lookup_insert.
      case_decide; [intros [= <-] | apply Uhash].
      destruct (Uhash id u Hu) as (p & e & Hp & Hh).
      exists p, e. split; [exact Hp | congruence].
    + intros k v. rewrite lookup_insert.
      case_decide; [intros [= <-] | apply Umail].
      rewrite Hem. exact (Umail id u Hu).
    + intros k1 k2 u1 u2. rewrite !lookup_insert.
      repeat case_decide; subst.
      * reflexivity.
      * intros [= <-] H2 He. rewrite Hem in He.
        exact (Uuniq _ _ _ _ Hu H2 He).
      * intros H1 [= <-] He. rewrite Hem in He.
        exact (Uuniq _ _ _ _ H1 Hu He).
      * apply Uuniq.
    + intros k c Hc. destruct (Hown k c Hc) as [v Hv].
      destruct (decide (id = Chat.userId c)) as [Heq | Hne].
      * rewrite <- Heq, lookup_insert_eq. eauto.
      * rewrite lookup_insert_ne by exact Hne. eauto.
  - (* a new chat *)
    constructor; cbn [users chats withChats]; try assumption.
    + intros k d. rewrite lookup_insert.
      case_decide; [intros [= <-]; congruence | apply Hckey].
    + intros k d. rewrite lookup_insert.
      case_decide; [intros [= <-]; exact Howner | apply Hown].
    + intros k d. rewrite lookup_insert.
      case_decide; [intros [= <-]; exact Ht | apply Htitle].
    + intros k d m. rewrite lookup_insert.
      case_decide; [intros [= <-]; rewrite Hms; intros [] | apply Hcont].
  - (* an updated chat *)
    constructor; cbn [users chats withChats]; try assumption.
    + intros k d. rewrite lookup_insert.
      case_decide; [intros [= <-]; congruence | apply Hckey].
    + intros k d. rewrite lookup_insert.
      case_decide; [intros [= <-] | apply Hown].
      rewrite Huid. exact (Hown id c Hc).
    + intros k d. rewrite lookup_insert.
      case_decide; [intros [= <-] | apply Htitle].
      destruct Ht as [-> | Ht]; [exact (Htitle id c Hc) | exact Ht].
    + intros k d m. rewrite lookup_insert.
      case_decide; [intros [= <-] Hm | apply Hcont].
      destruct (Hms m Hm) as [Hold | Hnew]; [| exact Hnew].
      exact (Hcont id c m Hc Hold).
  - (* a deleted chat *)
    constructor; cbn [users chats withChats]; try assumption.
    + intros k d. rewrite lookup_delete.
      case_decide; [discriminate | apply Hckey].
    + intros k d. rewrite lookup_delete.
      case_decide; [discriminate | apply Hown].
    + intros k d. rewrite lookup_delete.
      case_decide; [discriminate | apply Htitle].
    + intros k d m. rewrite lookup_delete.
      case_decide; [discriminate | apply Hcont].
Qed.

(** Every store the server reaches is well formed: each document is
    stored under its own [_id]; every user has a hashed password and a
    valid email, and no two users share an email; every chat belongs to a
    stored user, has a non-empty title, and none of its messages has an
    empty content. *)
Theorem reachable_stores_are_well_formed (P : Platform) (st : Store) :
  reachable P st -> wellFormed P st.
Proof.
  induction 1 as [| st A req _ IH].
  - constructor; cbn [users chats]; intros *;
      rewrite ?lookup_empty; discriminate.
  - exact (Effect_wellFormed P st _ IH (serve_effect P A st req)).
Qed.

Lemma reachable_stores_are_well_formed_witness :
  wellFormed demoPlatform
    (snd (serve demoPlatform demoAmbient {| users := ∅; chats := ∅ |}
                {| authorization := None;
                   route := PostRegister (Some (lit "Carol"))
                              (Some (lit "carol@example.com"))
                              (Some (lit "secret1")) |})).
Proof.
  apply (reachable_stores_are_well_formed demoPlatform).
  apply reachable_serve. apply reachable_init.
Defined.

(** ** The generator's keywords *)

Lemma mentionsAny_spec (text : jsstring) (keywords : list string) :
  mentionsAny text keywords <->
  existsb (fun k => JS.includes text (lit k)) keywords = true.
Proof.
  unfold mentionsAny. rewrite existsb_exists.
  split; intros (k & Hk & H); exists k; (split; [exact Hk |]);
    now apply includes_spec.
Qed.

Lemma templates_distinct :
  dessertResponse <> dealResponse /\
  dessertResponse <> restaurantResponse /\
  dessertResponse <> defaultResponse /\
  dealResponse <> restaurantResponse /\
  dealResponse <> defaultResponse /\
  restaurantResponse <> defaultResponse.
Proof.
  repeat split; intros H; apply (f_equal content) in H;
    vm_compute in H; discriminate.
Qed.

Lemma templates_recommend :
  recommendations dessertResponse <> [] /\
  recommendations dealResponse <> [] /\
  recommendations restaurantResponse <> [] /\
  recommendations defaultResponse = [].
Proof. repeat split; discriminate. Qed.

(** Which template the generator picks, from the keywords that occur in
    the lower-cased message: the bakery one when "cheesecake" or "dessert"
    occurs; otherwise the deals one when "deal", "offer" or "discount"
    occurs; otherwise the restaurant one when "restaurant", "food" or
    "eat" occurs; otherwise the help text.  The list of recommendations is
    empty exactly when no keyword occurs. *)
Theorem generator_keyword_precedence (P : Platform) (m : jsstring)
    (l : option jsstring) :
  let text := JS.toLowerCase (unicodeLower P) m in
  let r := generateAIResponse P m l in
  let sweet := mentionsAny text ["cheesecake"; "dessert"]%string in
  let deal := mentionsAny text ["deal"; "offer"; "discount"]%string in
  let meal := mentionsAny text ["restaurant"; "food"; "eat"]%string in
  (r = dessertResponse <-> sweet) /\
  (r = dealResponse <-> ~ sweet /\ deal) /\
  (r = restaurantResponse <-> ~ sweet /\ ~ deal /\ meal) /\
  (r = defaultResponse <-> ~ sweet /\ ~ deal /\ ~ meal) /\
  (recommendations r = [] <-> ~ sweet /\ ~ deal /\ ~ meal).
Proof.
  cbv zeta. rewrite !mentionsAny_spec. cbn [existsb].
  rewrite !orb_false_r, !orb_assoc. unfold generateAIResponse.
  destruct templates_distinct as (H1 & H2 & H3 & H4 & H5 & H6).
  destruct templates_recommend as (R1 & R2 & R3 & R4).
  set (text := JS.toLowerCase (unicodeLower P) m).
  destruct (JS.includes text (lit "cheesecake")
            || JS.includes text (lit "dessert"));
    [| destruct (JS.includes text (lit "deal")
                 || JS.includes text (lit "offer")
                 || JS.includes text (lit "discount"));
       [| destruct (JS.includes text (lit "restaurant")
                    || JS.includes text (lit "food")
                    || JS.includes text (lit "eat"))]];
    split_and!; split; intros; try discriminate; try tauto;
      try congruence; repeat split; discriminate.
Qed.

(** "What's the weather?" has no food in it, but "weather" has "eat". *)
Example weather_is_a_restaurant_query (P : Platform) :
  generateAIResponse P (lit "What's the weather?") None
  = restaurantResponse.
Proof. reflexivity. Qed.

(** ** The derived title *)

(** The title derived from a message is the message itself when it has at
    most 50 code units, and otherwise its first 50 code units followed by
    three dots; it never has more than 53. *)
Theorem derivedTitle_bounded (m : jsstring) :
  (List.length (derivedTitle m) <= 53)%nat /\
  (if JS.length m <=? 50 then derivedTitle m = m
   else derivedTitle m = firstn 50 m ++ lit "..." /\
        List.length (derivedTitle m) = 53%nat).
Proof.
  unfold derivedTitle, JS.length. rewrite substring_prefix, Z.gtb_ltb.
  destruct (Z.of_nat (List.length m) <=? 50) eqn:Hle.
  - apply Z.leb_le in Hle.
    replace (50 <? Z.of_nat (List.length m)) with false
      by (symmetry; apply Z.ltb_ge; lia).
    rewrite app_nil_r, firstn_all2 by lia. split; [lia | reflexivity].
  - apply Z.leb_gt in Hle.
    replace (50 <? Z.of_nat (List.length m)) with true
      by (symmetry; apply Z.ltb_lt; lia).
    rewrite length_app, length_firstn, Nat.min_l by lia.
    change (List.length (lit "...")) with 3%nat.
    split; [lia | split; [reflexivity | lia]].
Qed.

(** ** Routes that only read *)

(** The login, list, get, profile, location and health routes never write:
    whatever the request and its outcome, the store is as before. *)
Theorem reading_routes_write_nothing (P : Platform) (A : Ambient)
    (st : Store) (h : option jsstring) (rt : Route) :
  readOnly rt = true ->
  snd (serve P A st {| authorization := h; route := rt |}) = st.
Proof.
  intros Hro. unfold serve, protected. cbn [route authorization].
  destruct rt; try discriminate;
    try (destruct (authMiddleware P A st h) as [resp | U]; [reflexivity |]).
  - apply login_effect.
  - reflexivity.
  - apply getChat_store.
  - apply getProfile_effect.
  - apply getLocation_effect.
  - reflexivity.
Qed.

Lemma reading_routes_write_nothing_witness :
  snd (serve demoPlatform demoAmbient demoStore
             {| authorization := bobAuth; route := GetChat 5%N |})
  = demoStore.
Proof.
  apply (reading_routes_write_nothing demoPlatform demoAmbient demoStore
           bobAuth (GetChat 5%N)).
  reflexivity.
Defined.

(** ** Where the script characters are *)

Lemma testRange_app (lo hi : Z) (a b : jsstring) :
  JS.testRange lo hi (a ++ b)
  = JS.testRange lo hi a || JS.testRange lo hi b.
Proof. apply existsb_app. Qed.

Lemma testRange_ascii (lo hi : Z) (t : jsstring) :
  128 <= lo -> forallb JS.isAscii t = true -> JS.testRange lo hi t = false.
Proof.
  intros Hlo. unfold JS.testRange, JS.isAscii.
  induction t as [|c t IH]; [reflexivity |]. cbn [forallb existsb].
  intros [Hc Ht]%andb_true_iff. rewrite (IH Ht), orb_false_r.
  apply andb_true_iff in Hc as [_ Hc%Z.ltb_lt].
  apply andb_false_iff. left. apply Z.leb_gt. lia.
Qed.

(** The detected language depends on which scripts occur in the text, not
    on where: swapping two parts of a text or trimming it does not change
    it, so a text with a Bengali character anywhere is "bn" even when it
    starts with Chinese; and a text of ASCII characters only is "en". *)
Theorem detectLanguage_ignores_positions (a b : jsstring) :
  detectLanguage (a ++ b) = detectLanguage (b ++ a) /\
  detectLanguage (JS.trim a) = detectLanguage a /\
  (if forallb JS.isAscii a then detectLanguage a = lit "en" else True) /\
  detectLanguage (lit "你好 আমি") = lit "bn".
Proof.
  split_and!.
  - unfold detectLanguage. rewrite !testRange_app.
    now rewrite !(orb_comm (JS.testRange _ _ a)).
  - apply detectLanguage_trim.
  - destruct (forallb JS.isAscii a) eqn:Ha; [| exact I].
    unfold detectLanguage.
    now rewrite !testRange_ascii by (lia || exact Ha).
  - reflexivity.
Qed.
